(** * Folder aggregation engine of finalynx ([finalynx/portfolio/folder.py])

    A shallow embedding of [Folder] and [SharedFolder].

    - The portfolio is a tree of values: every node is held once, by its
      parent (the invariant of the specification on [Node]), and every
      folder has a list of children of its own, so that an assignment to
      a field of one node, or an addition to one list, leaves the other
      nodes as they are. A method that mutates objects returns them as
      it leaves them. The list that a shared folder has in common with
      its bucket until [process] replaces it is held by value: what is
      proved of [add_child] and [match_lines] on such a folder speaks of
      that folder alone.
    - A Python [float] is an IEEE 754 double, the primitive [float] of
      Rocq: every operation rounds, and infinities and NaN are values.
      [np.sum] is numpy's and is an operation of the interface
      [Collaborators].
    - An exception is a value of [result].
    - The classes that [folder.py] imports ([Node], [Line], [Target],
      [Bucket], [Envelope], [FetchLine]) are not part of the sources read
      here: their fields are modelled from the specification and their
      methods are the operations of the interface [Collaborators]. *)

From Stdlib Require Import PrimFloat SpecFloat FloatOps ZArith List Bool Lia.
From stdpp Require Import base option list strings gmap.

#[local] Set Warnings "-register-all,-inexact-float".
Local Open Scope string_scope.
Local Open Scope list_scope.

(** ** Exceptions *)

Inductive exn : Type :=
| KeyError (key : string)
| ValueError
| TypeError
| IndexError
| AttributeError.

Inductive result (A : Type) : Type :=
| Ok (a : A)
| Raise (e : exn).
Arguments Ok {A} a.
Arguments Raise {A} e.

#[global] Instance result_ret : MRet result := fun A a => Ok a.
#[global] Instance result_bind : MBind result :=
  fun A B f m => match m with Ok a => f a | Raise e => Raise e end.
#[global] Instance result_fmap : FMap result :=
  fun A B f m => match m with Ok a => Ok (f a) | Raise e => Raise e end.

Definition succeeds {A} (m : result A) : Prop := exists a, m = Ok a.

(** [[f(x) for x in xs]] where [f] may raise: left to right, the first
    exception ends the comprehension. *)
Fixpoint comprehension {A B} (f : A -> result B) (xs : list A) : result (list B) :=
  match xs with
  | [] => Ok []
  | x :: rest => y ← f x; ys ← comprehension f rest; Ok (y :: ys)
  end.

(** [[x for x in xs if keep(x)]] where [keep] may raise. *)
Fixpoint comprehension_if {A} (keep : A -> result bool) (xs : list A) : result (list A) :=
  match xs with
  | [] => Ok []
  | x :: rest =>
      k ← keep x; ys ← comprehension_if keep rest;
      Ok (if k : bool then x :: ys else ys)
  end.

(** ** Numbers *)

(** On floats [+], [*], [/] and [==] are [PrimFloat.add], [mul], [div]
    and [eqb]; [np.inf] is [infinity]. *)

(** Truth value of a float: [0.0] and [-0.0] are false, NaN is true. *)
Definition float_truthy (x : float) : bool := negb (x =? 0)%float.

(** [float(n)] for an integer [n]: the nearest float. *)
Definition float_of_Z (n : Z) : float := SF2Prim (binary_normalize prec emax n 0 false).

(** ** Plain nested maps: what [to_dict] builds and [from_dict] reads *)

Inductive value : Type :=
| VNone
| VBool (b : bool)
| VInt (n : Z)
| VFloat (x : float)
| VStr (s : string)
| VList (items : list value)
| VDict (entries : list (string * value)).

(** [d[key]] on the entries of a dict. *)
Fixpoint getitem (entries : list (string * value)) (key : string) : result value :=
  match entries with
  | [] => Raise (KeyError key)
  | (k, v) :: rest => if String.eqb k key then Ok v else getitem rest key
  end.

(** [v[key]] for a string key: only a dict can be subscripted by it. *)
Definition subscript (v : value) (key : string) : result value :=
  match v with
  | VDict entries => getitem entries key
  | _ => Raise TypeError
  end.

Definition keys (v : value) : list string :=
  match v with
  | VDict entries => map fst entries
  | _ => []
  end.

(** [bool(v)]. *)
Definition truthy (v : value) : bool :=
  match v with
  | VNone => false
  | VBool b => b
  | VInt n => negb (n =? 0)%Z
  | VFloat x => float_truthy x
  | VStr s => negb (String.eqb s "")
  | VList items => match items with [] => false | _ => true end
  | VDict entries => match entries with [] => false | _ => true end
  end.

(** A field the model types as a string. *)
Definition as_str (v : value) : result string :=
  match v with
  | VStr s => Ok s
  | _ => Raise TypeError
  end.

(** A field the model types as a float. *)
Definition as_float (v : value) : result float :=
  match v with
  | VFloat x => Ok x
  | VInt n => Ok (float_of_Z n)
  | _ => Raise TypeError
  end.

(** ** Enumerations and small records *)

Inductive FolderDisplay : Type :=
| EXPANDED
| COLLAPSED
| LINE.

(** [display.value]. *)
Definition FolderDisplay_value (d : FolderDisplay) : Z :=
  match d with
  | EXPANDED => 0
  | COLLAPSED => 1
  | LINE => 2
  end.

(** [FolderDisplay(v)]: the member whose value equals [v]. *)
Definition FolderDisplay_of_Z (n : Z) : result FolderDisplay :=
  if (n =? 0)%Z then Ok EXPANDED
  else if (n =? 1)%Z then Ok COLLAPSED
  else if (n =? 2)%Z then Ok LINE
  else Raise ValueError.

Definition FolderDisplay_of_value (v : value) : result FolderDisplay :=
  match v with
  | VInt n => FolderDisplay_of_Z n
  | VBool b => FolderDisplay_of_Z (Z.b2z b)
  | VFloat x =>
      if (x =? 0)%float then Ok EXPANDED
      else if (x =? 1)%float then Ok COLLAPSED
      else if (x =? 2)%float then Ok LINE
      else Raise ValueError
  | _ => Raise ValueError
  end.

(** Modelled from the spec: [constants.AssetClass] is not among the
    sources; an enum with an [UNKNOWN] sentinel as default. *)
Inductive AssetClass : Type :=
| AssetClass_UNKNOWN
| AssetClass_member (tag : string).

(** Modelled from the spec: [constants.AssetSubclass], as [AssetClass]. *)
Inductive AssetSubclass : Type :=
| AssetSubclass_UNKNOWN
| AssetSubclass_member (tag : string).

#[global] Instance AssetClass_eq_dec : EqDecision AssetClass.
Proof. solve_decision. Defined.
#[global] Instance AssetSubclass_eq_dec : EqDecision AssetSubclass.
Proof. solve_decision. Defined.

(** Modelled from the spec: [line.LinePerf], the performance descriptor
    [{expected: float, skip: bool}]; [LinePerf(x)] leaves [skip] false. *)
Record LinePerf : Type := mkLinePerf { expected : float; skip : bool }.

(** Modelled from the spec: [envelope.Envelope]; [folder.py] reads its
    [name] and [key]. *)
Record Envelope : Type := mkEnvelope { Envelope_name : string; Envelope_key : string }.

(** Truth value of an [Optional[str]]: [None] and the empty string are false. *)
Definition str_truthy (s : option string) : bool :=
  match s with
  | Some t => negb (String.eqb t "")
  | None => false
  end.

(** ** The tree *)

(** The types of the collaborators that [folder.py] only holds or passes
    on: a target, the data a line has of its own, a reference to a shared
    bucket, the state of all buckets, a fetched record. *)
Class Carriers : Type := {
  Target : Type;
  LineData : Type;
  Bucket : Type;
  Pool : Type;
  FetchLine : Type
}.

Section Tree.
Context `{Carriers}.

(** Modelled from the spec: the fields of [node.Node], whose constructor
    stores its arguments. The [parent] back-reference is the position in
    the tree: [set_parent] changes nothing else here. *)
Record NodeBase : Type := mkNodeBase {
  name : string;
  asset_class : AssetClass;
  asset_subclass : AssetSubclass;
  target : Target;
  newline : bool;
  perf : option LinePerf;
  currency : option string;
  envelope : option Envelope
}.

(** Modelled from the spec: a [line.Line] is a [Node] with data of its own. *)
Record Line : Type := mkLine { Line_base : NodeBase; Line_data : LineData }.

(** What [SharedFolder] adds to [Folder]. *)
Record SharedPart : Type := mkSharedPart {
  bucket : Bucket;
  target_amount : float
}.

(** A [Folder] is [NFolder b d None cs], a [SharedFolder] is
    [NFolder b d (Some s) cs]: [isinstance(c, Folder)] holds of both. *)
Inductive Node : Type :=
| NLine (l : Line)
| NFolder (b : NodeBase) (display : FolderDisplay)
          (shared : option SharedPart) (children : list Node).

Definition Node_base (n : Node) : NodeBase :=
  match n with
  | NLine l => Line_base l
  | NFolder b _ _ _ => b
  end.

Definition Node_children (n : Node) : list Node :=
  match n with
  | NLine _ => []
  | NFolder _ _ _ cs => cs
  end.

Definition isinstance_Line (n : Node) : bool :=
  match n with NLine _ => true | NFolder _ _ _ _ => false end.

Definition isinstance_Folder (n : Node) : bool :=
  match n with NLine _ => false | NFolder _ _ _ _ => true end.

Definition isinstance_SharedFolder (n : Node) : bool :=
  match n with NFolder _ _ (Some _) _ => true | _ => false end.

(** Assignments to one field of a node. *)
Definition set_newline (v : bool) (b : NodeBase) : NodeBase :=
  mkNodeBase (name b) (asset_class b) (asset_subclass b) (target b) v
             (perf b) (currency b) (envelope b).

Definition Node_set_newline (v : bool) (n : Node) : Node :=
  match n with
  | NLine l => NLine (mkLine (set_newline v (Line_base l)) (Line_data l))
  | NFolder b d s cs => NFolder (set_newline v b) d s cs
  end.

(** ** The collaborators' methods

    [folder.py] calls these on lines, targets, buckets and fetched records;
    their code is not part of this file. A method that reads or changes a
    bucket takes and returns the state of the buckets. *)
Class Collaborators : Type := {
  (** [np.sum] of a list of floats *)
  np_sum : list float -> float;
  (** [line.get_amount()], [line.get_ideal()], [line.get_currency()],
      [line.get_perf()], [line.process()]; they are taken to return *)
  Line_get_amount : Line -> float;
  Line_get_ideal : Line -> float;
  Line_get_currency : Line -> string;
  Line_get_perf : Line -> LinePerf;
  Line_process : Line -> Line;
  (** [line.to_dict()], [Line.from_dict(d, envelopes)] *)
  Line_to_dict : Line -> value;
  Line_from_dict : value -> gmap string Envelope -> result Line;
  (** the target [Node.__init__] stores for [target=None] *)
  Target_default : Target;
  (** [target.check() != Target.RESULT_NONE] *)
  Target_is_set : Target -> bool;
  Target_get_ideal : Target -> float;
  (** [Some r] when [isinstance(target, TargetRatio)], [r] its [target_ratio] *)
  Target_ratio : Target -> option float;
  Target_to_dict : Target -> value;
  Target_from_dict : value -> result Target;
  (** [bucket.name], [bucket.lines], [bucket.use_amount(amount)] *)
  Bucket_name : Bucket -> string;
  Bucket_lines : Bucket -> list Line;
  Bucket_use_amount : Bucket -> float -> Pool -> list Line * Pool;
  (** [fetch_line.account], [fetch_line.generate_line()],
      [fetch_line.matches_line(line)] *)
  FetchLine_account : FetchLine -> string;
  FetchLine_generate_line : FetchLine -> Line;
  FetchLine_matches_line : FetchLine -> Line -> bool
}.

Context `{Collaborators}.

(** ** Aggregation *)

(** [Folder.get_amount]; on a line, the line's own method. *)
Fixpoint get_amount (self : Node) : float :=
  match self with
  | NLine l => Line_get_amount l
  | NFolder _ _ _ children =>
      match children with
      | [] => 0%float
      | _ => np_sum (map get_amount children)
      end
  end.

(** [Folder.get_ideal]. *)
Fixpoint get_ideal (self : Node) : float :=
  match self with
  | NLine l => Line_get_ideal l
  | NFolder b _ _ children =>
      if Target_is_set (target b) then Target_get_ideal (target b)
      else np_sum (map get_ideal children)
  end.

(** [currencies.count(x)]. *)
Definition count (x : string) (xs : list string) : nat :=
  length (List.filter (String.eqb x) xs).

(** The body of [Folder.get_currency], from the list [currencies] on. *)
Definition common_currency (currencies : list string) : string :=
  match currencies with
  | first :: _ =>
      if Nat.eqb (count first currencies) (length currencies) then first else "#"
  | [] => "#"
  end.

(** [Folder.get_currency]. *)
Fixpoint get_currency (self : Node) : string :=
  match self with
  | NLine l => Line_get_currency l
  | NFolder _ _ _ children => common_currency (map get_currency children)
  end.

(** [c.perf.skip]: raises on a node without performance. *)
Definition perf_skip (c : Node) : result bool :=
  match perf (Node_base c) with
  | Some p => Ok (skip p)
  | None => Raise AttributeError
  end.

(** [not (isinstance(c, Line) and c.perf.skip)]. *)
Definition is_candidate (c : Node) : result bool :=
  if isinstance_Line c then negb <$> perf_skip c else Ok true.

(** [list(np.ones(n) / n)]. *)
Definition equal_weights (n : nat) : list float :=
  repeat (1 / float_of_Z (Z.of_nat n))%float n.

(** [Folder.get_perf] once the candidates and their performances are known. *)
Definition weighted_perf (ideal : bool) (children : list Node) (perfs : list LinePerf)
  : LinePerf :=
  if match children with [] => true | _ => false end || forallb skip perfs
  then mkLinePerf 0 true
  else
    let amounts := map (fun c => if ideal then get_ideal c else get_amount c) children in
    let total := np_sum amounts in
    let weights :=
      if negb (float_truthy total) then equal_weights (length amounts)
      else map (fun e => e / total)%float amounts in
    mkLinePerf
      (np_sum (map (fun wp => fst wp * expected (snd wp))%float (combine weights perfs)))
      false.

(** The candidates among children paired with their performances. *)
Fixpoint candidate_perfs (paired : list (Node * result LinePerf))
  : result (list (Node * LinePerf)) :=
  match paired with
  | [] => Ok []
  | (c, r) :: rest =>
      k ← is_candidate c;
      if k : bool then p ← r; ps ← candidate_perfs rest; Ok ((c, p) :: ps)
      else candidate_perfs rest
  end.

(** [Folder.get_perf]. The recursive calls are laid out over all children
    and read off at the candidates; [get_perf_folder] below gives the
    body in the order of the source. *)
Fixpoint get_perf (ideal : bool) (self : Node) : result LinePerf :=
  match self with
  | NLine l => Ok (Line_get_perf l)
  | NFolder _ _ _ children =>
      _ ← comprehension_if is_candidate children;
      cps ← candidate_perfs (map (fun c => (c, get_perf ideal c)) children);
      Ok (weighted_perf ideal (map fst cps) (map snd cps))
  end.

(** ** Attribute propagation *)

(** The assignments of [Folder.set_child_attribs] to the child's own fields. *)
Definition inherit (asset_class' : AssetClass) (asset_subclass' : AssetSubclass)
    (perf' : option LinePerf) (currency' : option string)
    (envelope' : option Envelope) (b : NodeBase) : NodeBase :=
  {| name := name b;
     asset_class :=
       if decide (asset_class b = AssetClass_UNKNOWN) then asset_class' else asset_class b;
     asset_subclass :=
       if decide (asset_subclass b = AssetSubclass_UNKNOWN) then asset_subclass'
       else asset_subclass b;
     target := target b;
     newline := newline b;
     perf :=
       match perf' with
       | Some p =>
           match perf b with
           | None => Some p
           | Some q => if (expected q =? 0)%float then Some p else Some q
           end
       | None => perf b
       end;
     currency := if str_truthy currency' then currency' else currency b;
     envelope := match envelope' with Some e => Some e | None => envelope b end |}.

(** [Folder.set_child_attribs]: returns the child as the call leaves it. *)
Fixpoint set_child_attribs (asset_class' : AssetClass) (asset_subclass' : AssetSubclass)
    (perf' : option LinePerf) (currency' : option string)
    (envelope' : option Envelope) (child : Node) : Node :=
  match child with
  | NLine l =>
      NLine (mkLine (inherit asset_class' asset_subclass' perf' currency' envelope'
                             (Line_base l)) (Line_data l))
  | NFolder b d s children =>
      NFolder (inherit asset_class' asset_subclass' perf' currency' envelope' b) d s
        (map (set_child_attribs asset_class' asset_subclass' perf' currency' envelope')
             children)
  end.

(** What a folder passes to [set_child_attribs]: its own five attributes. *)
Definition attach (b : NodeBase) (child : Node) : Node :=
  set_child_attribs (asset_class b) (asset_subclass b) (perf b) (currency b)
                    (envelope b) child.

(** [Folder.__init__]. *)
Definition Folder_init (name' : string) (asset_class' : AssetClass)
    (asset_subclass' : AssetSubclass) (target' : option Target)
    (children' : option (list Node)) (newline' : bool) (display' : FolderDisplay)
    (perf' : option LinePerf) (currency' : option string)
    (envelope' : option Envelope) : Node :=
  let b := mkNodeBase name' asset_class' asset_subclass'
             (default Target_default target') newline' perf' currency' envelope' in
  NFolder b display' None (map (attach b) (default [] children')).

(** [Folder.add_child], the folder having a list of children of its own;
    on a line there is no such method. *)
Definition add_child (self child : Node) : Node :=
  match self with
  | NFolder b d s children => NFolder b d s (children ++ [attach b child])
  | NLine _ => self
  end.

(** [SharedFolder.__init__]: a folder over the bucket's lines, built with
    [newline=False], then given its three attributes. In the source the
    list of children is the bucket's own list until [process] replaces it;
    here it is that list's value. *)
Definition SharedFolder_init (name' : string) (bucket' : Bucket)
    (asset_class' : AssetClass) (asset_subclass' : AssetSubclass)
    (target_amount' : float) (target' : option Target) (newline' : bool)
    (display' : FolderDisplay) : Node :=
  match Folder_init name' asset_class' asset_subclass' target'
          (Some (map NLine (Bucket_lines bucket'))) false display' None None None with
  | NFolder b d _ children =>
      NFolder (set_newline newline' b) d (Some (mkSharedPart bucket' target_amount')) children
  | n => n
  end.

(** ** The processing pass *)

(** What [process] reads and changes outside the tree: the buckets and the
    lines logged on the console. *)
Record World : Type := mkWorld { pool : Pool; console : list string }.

Definition console_log (msg : string) (w : World) : World :=
  mkWorld (pool w) (console w ++ [msg]).

Definition ratio_warning (folder_name : string) : string :=
  "[yellow][bold]WARNING:[/] Folder '" +:+ folder_name +:+ "' total ratio should sum to 100.".

(** [total_ratio += child.target.target_ratio] under its [isinstance] test. *)
Definition add_ratio (total_ratio : float) (child : Node) : float :=
  match Target_ratio (target (Node_base child)) with
  | Some r => (total_ratio + r)%float
  | None => total_ratio
  end.

(** [total_ratio != 0 and total_ratio != 100]. *)
Definition ratio_off (total_ratio : float) : bool :=
  negb (total_ratio =? 0)%float && negb (total_ratio =? 100)%float.

(** The loop of [Folder.process] over the children, [process] being the
    method each child answers to. *)
Fixpoint process_children (process : Node -> World -> result (Node * World))
    (children : list Node) (total_ratio : float) (w : World)
  : result (list Node * float * World) :=
  match children with
  | [] => Ok ([], total_ratio, w)
  | child :: rest =>
      cw ← process child w;
      r ← process_children process rest (add_ratio total_ratio (fst cw)) (snd cw);
      Ok (fst cw :: fst (fst r), snd (fst r), snd r)
  end.

(** [Folder.process] on a folder of fields [b], [d], [s] and [children]. *)
Definition Folder_process (process : Node -> World -> result (Node * World))
    (b : NodeBase) (d : FolderDisplay) (s : option SharedPart) (children : list Node)
    (w : World) : result (Node * World) :=
  r ← process_children process children 0%float w;
  let total_ratio := snd (fst r) in
  Ok (NFolder b d s (fst (fst r)),
      if ratio_off total_ratio then console_log (ratio_warning (name b)) (snd r)
      else snd r).

(** [xs[-1] = f(xs[-1])]: an [IndexError] on the empty list. *)
Fixpoint update_last {A} (f : A -> A) (xs : list A) : result (list A) :=
  match xs with
  | [] => Raise IndexError
  | [x] => Ok [f x]
  | x :: rest => cons x <$> update_last f rest
  end.

(** [SharedFolder.process]. *)
Definition SharedFolder_process (process : Node -> World -> result (Node * World))
    (b : NodeBase) (d : FolderDisplay) (s : SharedPart) (children : list Node)
    (w : World) : result (Node * World) :=
  sw ← Folder_process process b d (Some s) children w;
  let used := Bucket_use_amount (bucket s) (target_amount s) (pool (snd sw)) in
  let w' := mkWorld (snd used) (console (snd sw)) in
  let children' := map NLine (fst used) in
  match children' with
  | [] => Ok (NFolder b d (Some s) children', w')
  | _ =>
      children'' ← update_last (Node_set_newline (newline b)) children';
      Ok (NFolder b d (Some s) children'', w')
  end.

(** [node.process()], by the class of the node. *)
Fixpoint process (self : Node) (w : World) : result (Node * World) :=
  match self with
  | NLine l => Ok (NLine (Line_process l), w)
  | NFolder b d None children => Folder_process process b d None children w
  | NFolder b d (Some s) children => SharedFolder_process process b d s children w
  end.


(** ** Matching fetched records *)

(** [matched] holds references to lines of the tree. A reference is the
    place of the line: the indices of the children on the way down from
    the folder [match_lines] was called on. *)
Definition place : Type := list nat.


(** [self.envelope and fetch_line.account in [self.envelope.key, self.envelope.name]]. *)
Definition envelope_matches (b : NodeBase) (fetch_line : FetchLine) : bool :=
  match envelope b with
  | Some e =>
      String.eqb (FetchLine_account fetch_line) (Envelope_key e)
      || String.eqb (FetchLine_account fetch_line) (Envelope_name e)
  | None => false
  end.

(** The loop of [Folder.match_lines] over the children from index [i] on;
    [match_lines] is the method a folder child answers to. *)
Fixpoint scan_children (match_lines : Node -> list place * Node)
    (fetch_line : FetchLine) (i : nat) (children : list Node)
  : list place * list Node :=
  match children with
  | [] => ([], [])
  | child :: rest =>
      let here :=
        match child with
        | NLine l =>
            (if FetchLine_matches_line fetch_line l then [[i]] else [], child)
        | NFolder _ _ _ _ =>
            let r := match_lines child in (map (cons i) (fst r), snd r)
        end in
      let r := scan_children match_lines fetch_line (S i) rest in
      (fst here ++ fst r, snd here :: snd r)
  end.

(** The body of [Folder.match_lines], in the order of the source. *)
Definition Folder_match_lines (match_lines : Node -> list place * Node)
    (fetch_line : FetchLine) (self : Node) : list place * Node :=
  match self with
  | NLine _ => ([], self)
  | NFolder b d s children =>
      let generated_line := NLine (FetchLine_generate_line fetch_line) in
      let self' := if envelope_matches b fetch_line then add_child self generated_line
                   else self in
      let matched := if envelope_matches b fetch_line then [[length children]] else [] in
      let r := scan_children match_lines fetch_line 0 (Node_children self') in
      (matched ++ fst r, NFolder b d s (snd r))
  end.

(** [Folder.match_lines]: the matched places and the folder as the call
    leaves it. The generated line, being a line, is scanned without a
    recursive call; [match_lines_folder] below shows that this is
    [Folder_match_lines]. *)
Fixpoint match_lines (fetch_line : FetchLine) (self : Node) : list place * Node :=
  match self with
  | NLine _ => ([], self)
  | NFolder b d s children =>
      let r := scan_children (match_lines fetch_line) fetch_line 0 children in
      if envelope_matches b fetch_line then
        let generated_line := attach b (NLine (FetchLine_generate_line fetch_line)) in
        let last := scan_children (fun n => ([], n)) fetch_line (length children)
                      [generated_line] in
        ([length children] :: fst r ++ fst last, NFolder b d s (snd r ++ snd last))
      else (fst r, NFolder b d s (snd r))
  end.

(** ** Serialization *)

(** [Folder.to_dict] and [SharedFolder.to_dict], by the class of the node. *)
Fixpoint to_dict (self : Node) : value :=
  match self with
  | NLine l => Line_to_dict l
  | NFolder b d None children =>
      VDict [("type", VStr "folder");
             ("name", VStr (name b));
             ("target", Target_to_dict (target b));
             ("children", VList (map to_dict children));
             ("newline", VBool (newline b));
             ("display", VInt (FolderDisplay_value d))]
  | NFolder b d (Some s) _ =>
      VDict [("type", VStr "shared_folder");
             ("name", VStr (name b));
             ("bucket_name", VStr (Bucket_name (bucket s)));
             ("target_amount", VFloat (target_amount s));
             ("target", Target_to_dict (target b));
             ("newline", VBool (newline b));
             ("display", VInt (FolderDisplay_value d))]
  end.

(** [parse(dict[key])]. *)
Definition field {A} (dict : value) (key : string) (parse : value -> result A)
  : result A :=
  v ← subscript dict key; parse v.

(** [buckets[key]], for a key the model types as a string. *)
Definition lookup_bucket (buckets : gmap string Bucket) (key : value) : result Bucket :=
  k ← as_str key;
  match buckets !! k with
  | Some b => Ok b
  | None => Raise (KeyError k)
  end.

(** [SharedFolder.from_dict]. *)
Definition SharedFolder_from_dict (dict : value) (buckets : gmap string Bucket)
  : result Node :=
  name' ← field dict "name" as_str;
  bucket' ← field dict "bucket_name" (lookup_bucket buckets);
  target_amount' ← field dict "target_amount" as_float;
  target' ← field dict "target" Target_from_dict;
  newline' ← field dict "newline" (fun v => Ok (truthy v));
  display' ← field dict "display" FolderDisplay_of_value;
  Ok (SharedFolder_init name' bucket' AssetClass_UNKNOWN AssetSubclass_UNKNOWN
        target_amount' (Some target') newline' display').

(** [child_dict["type"] == tag]. *)
Definition type_is (ty : value) (tag : string) : bool :=
  match ty with
  | VStr s => String.eqb s tag
  | _ => false
  end.

(** One turn of the loop of [Folder.from_dict]: the children to append.
    [from_dict] is [Folder.from_dict] with its two tables. *)
Definition child_from_dict (from_dict : value -> result Node)
    (buckets : gmap string Bucket) (envelopes : gmap string Envelope)
    (child_dict : value) : result (list Node) :=
  ty ← subscript child_dict "type";
  if type_is ty "line" then l ← Line_from_dict child_dict envelopes; Ok [NLine l]
  else if type_is ty "folder" then c ← from_dict child_dict; Ok [c]
  else if type_is ty "shared_folder" then
    c ← SharedFolder_from_dict child_dict buckets; Ok [c]
  else Ok [].

(** The loop of [Folder.from_dict] over the items of [dict["children"]]. *)
Fixpoint children_from_dicts (from_dict : value -> result Node)
    (buckets : gmap string Bucket) (envelopes : gmap string Envelope)
    (items : list value) : result (list Node) :=
  match items with
  | [] => Ok []
  | child_dict :: rest =>
      cs ← child_from_dict from_dict buckets envelopes child_dict;
      more ← children_from_dicts from_dict buckets envelopes rest;
      Ok (cs ++ more)
  end.

(** [for child_dict in v]: the loop runs over the items of a list; an
    empty string or dict gives no turn; the first turn over anything else
    that can be iterated fails at [child_dict["type"]]. *)
Definition for_each_child (loop : list value -> result (list Node)) (v : value)
  : result (list Node) :=
  match v with
  | VList items => loop items
  | VStr s => if String.eqb s "" then Ok [] else Raise TypeError
  | VDict entries => match entries with [] => Ok [] | _ => Raise TypeError end
  | _ => Raise TypeError
  end.

(** [k(d[key])], the lookup of [getitem] followed by [k]. *)
Definition getitem_then {R} (key : string) (k : value -> result R)
  : list (string * value) -> result R :=
  fix find entries :=
    match entries with
    | [] => Raise (KeyError key)
    | (k', v) :: rest => if String.eqb k' key then k v else find rest
    end.

(** The tail of [Folder.from_dict]: the call of [Folder(...)]. *)
Definition Folder_of_fields (dict : value) (children : list Node) : result Node :=
  name' ← field dict "name" as_str;
  target' ← field dict "target" Target_from_dict;
  display' ← field dict "display" FolderDisplay_of_value;
  newline' ← field dict "newline" (fun v => Ok (truthy v));
  Ok (Folder_init name' AssetClass_UNKNOWN AssetSubclass_UNKNOWN (Some target')
        (Some children) newline' display' None None None).

(** [Folder.from_dict]; [Folder_from_dict_eq] below gives the body with
    the plain lookup [subscript dict "children"]. *)
Fixpoint Folder_from_dict (buckets : gmap string Bucket)
    (envelopes : gmap string Envelope) (dict : value) : result Node :=
  match dict with
  | VDict entries =>
      children ←
        getitem_then "children"
          (for_each_child
             (children_from_dicts (Folder_from_dict buckets envelopes) buckets envelopes))
          entries;
      Folder_of_fields dict children
  | _ => Raise TypeError
  end.

(** ** The properties, in the words of the specification *)





(** The [target_ratio] of the nodes whose target is a ratio, added to
    [0.0] one after the other. *)
Definition ratio_sum (children : list Node) : float :=
  fold_left (fun total r => (total + r)%float)
    (flat_map (fun c => match Target_ratio (target (Node_base c)) with
                        | Some r => [r]
                        | None => []
                        end) children) 0%float.

(** [processed cs w cs' w']: [process] ran on every node of [cs] in order,
    from the world [w], none raised, and left [cs'] and [w']. *)
Inductive processed : list Node -> World -> list Node -> World -> Prop :=
| processed_nil w : processed [] w [] w
| processed_cons c cs w c' w1 cs' w2 :
    process c w = Ok (c', w1) ->
    processed cs w1 cs' w2 ->
    processed (c :: cs) w (c' :: cs') w2.

(** The fields of a folder that its dict carries. *)
Definition same_fields (b b' : NodeBase) : Prop :=
  name b' = name b /\ newline b' = newline b /\ target b' = target b.

(** The defaults of [Folder.__init__] for the fields [from_dict] leaves out. *)
Definition default_attributes (b : NodeBase) : Prop :=
  asset_class b = AssetClass_UNKNOWN /\ asset_subclass b = AssetSubclass_UNKNOWN /\
  perf b = None /\ currency b = None /\ envelope b = None.

(** [rebuilt_as line_ok buckets envelopes n n']: [n'] has the class of
    [n] and its serialized fields; a line is what [Line.from_dict] reads
    back, which [line_ok] relates to the line, the children of a folder
    are rebuilt one for one, and a shared folder holds the lines of the
    bucket its [bucket_name] resolves to. *)
Inductive rebuilt_as (line_ok : Line -> Line -> Prop) (buckets : gmap string Bucket)
    (envelopes : gmap string Envelope) : Node -> Node -> Prop :=
| rebuilt_line l l' :
    Line_from_dict (Line_to_dict l) envelopes = Ok l' ->
    line_ok l l' ->
    rebuilt_as line_ok buckets envelopes (NLine l) (NLine l')
| rebuilt_folder b b' d cs cs' :
    same_fields b b' -> default_attributes b' ->
    Forall2 (rebuilt_as line_ok buckets envelopes) cs cs' ->
    rebuilt_as line_ok buckets envelopes (NFolder b d None cs) (NFolder b' d None cs')
| rebuilt_shared b b' d s s' cs :
    same_fields b b' -> default_attributes b' ->
    buckets !! Bucket_name (bucket s) = Some (bucket s') ->
    target_amount s' = target_amount s ->
    rebuilt_as line_ok buckets envelopes (NFolder b d (Some s) cs)
      (NFolder b' d (Some s') (map NLine (Bucket_lines (bucket s')))).

(** [rebuilt buckets envelopes n n']: [n'] is [n] rebuilt, every line
    with the name, the newline flag and the target it had. *)
Definition rebuilt (buckets : gmap string Bucket) (envelopes : gmap string Envelope)
  : Node -> Node -> Prop :=
  rebuilt_as (fun l l' => same_fields (Line_base l) (Line_base l')) buckets envelopes.

(** What the round trip asks of the collaborators: a line under a folder
    serializes to a dict of type ["line"] that [Line.from_dict] reads, and
    the name of every bucket is in the table. *)
Fixpoint serializable (buckets : gmap string Bucket) (envelopes : gmap string Envelope)
    (n : Node) : Prop :=
  match n with
  | NLine l =>
      subscript (Line_to_dict l) "type" = Ok (VStr "line") /\
      succeeds (Line_from_dict (Line_to_dict l) envelopes)
  | NFolder _ _ None children =>
      fold_right (fun c rest => serializable buckets envelopes c /\ rest) True children
  | NFolder _ _ (Some s) _ => is_Some (buckets !! Bucket_name (bucket s))
  end.

End Tree.

(** * Reading a whole tree

    What the properties of the whole tree speak of, and the methods of
    [folder.py] that the sections above leave out. *)

Section Reach.
Context `{Collaborators}.

(** The lines of a tree, from left to right. *)
Fixpoint lines_of (n : Node) : list Line :=
  match n with
  | NLine l => [l]
  | NFolder _ _ _ children => flat_map lines_of children
  end.

(** The own fields of every node of a tree, a folder before its children. *)
Fixpoint bases_of (n : Node) : list NodeBase :=
  match n with
  | NLine l => [Line_base l]
  | NFolder b _ _ children => b :: flat_map bases_of children
  end.

(** The own fields of every folder of a tree. *)
Fixpoint folders_of (n : Node) : list NodeBase :=
  match n with
  | NLine _ => []
  | NFolder b _ _ children => b :: flat_map folders_of children
  end.

(** The folders of a tree that have no child. *)
Fixpoint empty_folders (n : Node) : nat :=
  match n with
  | NLine _ => 0
  | NFolder _ _ _ [] => 1
  | NFolder _ _ _ children => list_sum (map empty_folders children)
  end.

(** A line marked skip: what the first comprehension of [get_perf] drops. *)
Definition marked_skip (c : Node) : bool :=
  match c with
  | NLine l => match perf (Line_base l) with Some p => skip p | None => false end
  | NFolder _ _ _ _ => false
  end.

(** The own fields of a node without the five attributes that a folder
    hands down to its children. *)
Definition bare (b : NodeBase) : NodeBase :=
  mkNodeBase (name b) AssetClass_UNKNOWN AssetSubclass_UNKNOWN (target b) (newline b)
             None None None.

(** A tree without these attributes. *)
Fixpoint stripped (n : Node) : Node :=
  match n with
  | NLine l => NLine (mkLine (bare (Line_base l)) (Line_data l))
  | NFolder b d s children => NFolder (bare b) d s (map stripped children)
  end.

(** Whether a shared folder is in the tree. *)
Fixpoint has_shared (n : Node) : bool :=
  match n with
  | NLine _ => false
  | NFolder _ _ (Some _) _ => true
  | NFolder _ _ None children => existsb has_shared children
  end.

(** The node of a tree at a place, if there is one. *)
Fixpoint node_at (n : Node) (p : place) : option Node :=
  match p with
  | [] => Some n
  | i :: rest =>
      match nth_error (Node_children n) i with
      | Some c => node_at c rest
      | None => None
      end
  end.

(** [Portfolio.__init__]: a folder without parent, with [newline=False]
    and the defaults of [Folder.__init__] for what it does not pass on. In
    [folder.py] a [Portfolio] differs from a [Folder] by these arguments
    and by [from_dict] only, so it is a folder here. *)
Definition Portfolio_init (name' : string) (target' : option Target)
    (children' : option (list Node)) (currency' : option string) : Node :=
  Folder_init name' AssetClass_UNKNOWN AssetSubclass_UNKNOWN target' children' false
    EXPANDED None currency' None.

(** [Portfolio.from_dict]. *)
Definition Portfolio_from_dict (dict : value) (buckets : gmap string Bucket)
    (envelopes : gmap string Envelope) : result Node :=
  children_v ← subscript dict "children";
  children ← for_each_child
               (children_from_dicts (Folder_from_dict buckets envelopes) buckets envelopes)
               children_v;
  name' ← field dict "name" as_str;
  target' ← field dict "target" Target_from_dict;
  Ok (Portfolio_init name' (Some target') (Some children) None).

(** The shared folders that [to_dict] writes: those not below another
    shared folder. *)
Fixpoint shared_below (n : Node) : list SharedPart :=
  match n with
  | NLine _ => []
  | NFolder _ _ (Some s) _ => [s]
  | NFolder _ _ None children => flat_map shared_below children
  end.

(** ** Rendering *)

(** [rich.tree.Tree], as far as [folder.py] uses it: a label, the style
    of the guides, whether the root is hidden, and the children. *)
Inductive Tree : Type :=
| mkTree (label : string) (guide_style : string) (hide_root : bool)
         (children : list Tree).

Definition Tree_label (t : Tree) : string :=
  match t with mkTree label _ _ _ => label end.

Definition Tree_guide_style (t : Tree) : string :=
  match t with mkTree _ guide_style _ _ => guide_style end.

Definition Tree_hide_root (t : Tree) : bool :=
  match t with mkTree _ _ hide_root _ => hide_root end.

Definition Tree_children (t : Tree) : list Tree :=
  match t with mkTree _ _ _ children => children end.

(** [tree.children.append(node)]. *)
Definition Tree_append (t node : Tree) : Tree :=
  match t with
  | mkTree label guide_style hide_root children =>
      mkTree label guide_style hide_root (children ++ [node])
  end.

(** The node that [tree.add(label)] makes: the guides of [tree], a root
    that is not hidden, no child. *)
Definition Tree_node (t : Tree) (label : string) : Tree :=
  mkTree label (Tree_guide_style t) false [].

(** [tree.add(label)], for the tree it leaves. *)
Definition Tree_add (t : Tree) (label : string) : Tree :=
  Tree_append t (Tree_node t label).

(** [tree.children[0].label = f(tree.children[0].label)]. *)
Definition Tree_relabel_first (f : string -> string) (t : Tree) : Tree :=
  match t with
  | mkTree label guide_style hide_root (mkTree l g h cs :: rest) =>
      mkTree label guide_style hide_root (mkTree (f l) g h cs :: rest)
  | _ => t
  end.

(** The labels below the root, in the order a tree is printed. *)
Fixpoint Tree_rows (t : Tree) : list string :=
  match t with
  | mkTree _ _ _ children => flat_map (fun c => Tree_label c :: Tree_rows c) children
  end.

(** What [folder.py] calls to render: [node.render(format, ...)], a
    line's [tree(...)] for the tree it leaves of the node it is given,
    and two colours of the active theme. The keyword arguments of
    [render] are a value of [RenderArgs]: none, [align=False], or what
    [tree] is given to pass on. *)
Class Renderers : Type := {
  RenderArgs : Type;
  no_args : RenderArgs;
  unaligned : RenderArgs;
  Node_render : Node -> string -> RenderArgs -> string;
  Line_tree : Line -> string -> RenderArgs -> Tree -> Tree;
  TH_TREE_BRANCH : string;
  TH_TEXT : string
}.

Context `{Renderers}.

(** The character ["\n"]. *)
Definition newline_char : string := String (Ascii.ascii_of_nat 10) "".

Definition is_expanded (d : FolderDisplay) : bool :=
  match d with EXPANDED => true | _ => false end.

(** [child.tree(output_format=..., _tree=node, **render_args)] for the
    tree it leaves of [node]: a folder adds a node with its rendering
    and, when expanded, lets its children add theirs below it. *)
Fixpoint tree_under (output_format : string) (render_args : RenderArgs) (self : Node)
    (_tree : Tree) : Tree :=
  match self with
  | NLine l => Line_tree l output_format render_args _tree
  | NFolder _ d _ children =>
      let render := Node_render self output_format render_args in
      let node := Tree_node _tree render in
      Tree_append _tree
        (if is_expanded d
         then fold_left (fun node child => tree_under output_format render_args child node)
                        children node
         else node)
  end.

(** [Folder.tree] called on a folder [self] without [_tree]: the tree it
    returns. *)
Definition tree (self : Node) (output_format : string) (hide_root : bool)
    (render_args : RenderArgs) : Tree :=
  let render := Node_render self output_format render_args in
  let node := mkTree render TH_TREE_BRANCH hide_root [] in
  match self with
  | NFolder _ d _ children =>
      if is_expanded d
      then fold_left (fun node child => tree_under output_format render_args child node)
                     children node
      else node
  | NLine _ => node
  end.

Record Sidecar : Type := mkSidecar {
  output_format : string;
  condition_format : string;
  title : option string;
  render_folders : bool + string
}.

(** [Sidecar()]. *)
Definition Sidecar_default : Sidecar := mkSidecar "[delta]" "" None (inl true).

(** [c.isspace()] for a character of ASCII. *)
Definition isspace (c : Ascii.ascii) : bool :=
  let n := Ascii.nat_of_ascii c in
  (Nat.leb 9 n && Nat.leb n 13) || (Nat.leb 28 n && Nat.leb n 32).

(** Truth value of [s.strip()]: whether a character of [s] is not a space. *)
Fixpoint strip_truthy (s : string) : bool :=
  match s with
  | EmptyString => false
  | String c rest => negb (isspace c) || strip_truthy rest
  end.

(** [s.replace(c, "")] for a character [c]. *)
Fixpoint remove_char (c : Ascii.ascii) (s : string) : string :=
  match s with
  | EmptyString => EmptyString
  | String x rest =>
      if Ascii.eqb x c then remove_char c rest else String x (remove_char c rest)
  end.

(** [s.upper()] for a string of ASCII. *)
Fixpoint upper (s : string) : string :=
  match s with
  | EmptyString => EmptyString
  | String x rest =>
      let n := Ascii.nat_of_ascii x in
      String (if Nat.leb 97 n && Nat.leb n 122 then Ascii.ascii_of_nat (n - 32) else x)
             (upper rest)
  end.

(** [_render_node], the function local to [render_sidecar]. *)
Definition _render_node (sidecar : Sidecar) (node : Node) : string :=
  if negb (str_truthy (Some (condition_format sidecar)))
     || strip_truthy (Node_render node (condition_format sidecar) no_args)
  then Node_render node (output_format sidecar) unaligned
  else "".

(** [sidecar.render_folders in [False, "False", "false"]]. *)
Definition folders_off (sidecar : Sidecar) : bool :=
  match render_folders sidecar with
  | inl b => negb b
  | inr s => String.eqb s "False" || String.eqb s "false"
  end.

(** The text [render] of [render_sidecar] when it is added to the tree. *)
Definition own_row (sidecar : Sidecar) (self : Node) : string :=
  match self with
  | NFolder b d _ _ =>
      let render :=
        if negb (folders_off sidecar && negb (isinstance_SharedFolder self) && is_expanded d)
        then _render_node sidecar self else "" in
      if negb (is_expanded d) && newline b then render ++ newline_char else render
  | NLine _ => ""
  end.

(** The row [render_sidecar] adds for a child that is not a folder. *)
Definition leaf_row (sidecar : Sidecar) (child : Node) : string :=
  _render_node sidecar child
  ++ (if newline (Node_base child) then newline_char else "").

(** [child.render_sidecar(sidecar, _tree=_tree)], as [render_sidecar]
    calls it on a folder among its children, for the tree it leaves. *)
Fixpoint sidecar_under (sidecar : Sidecar) (self : Node) (_tree : Tree) : Tree :=
  match self with
  | NLine _ => _tree
  | NFolder _ d _ children =>
      let _tree := Tree_add _tree (own_row sidecar self) in
      if is_expanded d
      then fold_left
             (fun t child =>
                match child with
                | NFolder _ _ _ _ => sidecar_under sidecar child t
                | NLine _ => Tree_add t (leaf_row sidecar child)
                end) children _tree
      else _tree
  end.

(** The title of a sidecar: its own, or its output format without
    brackets, in capitals. *)
Definition sidecar_title (sidecar : Sidecar) : string :=
  if str_truthy (title sidecar) then default "" (title sidecar)
  else upper (remove_char (Ascii.ascii_of_nat 93) (* "]" *)
                (remove_char (Ascii.ascii_of_nat 91) (* "[" *) (output_format sidecar))).

(** [Folder.render_sidecar], on a folder [self]. *)
Definition render_sidecar (self : Node) (sidecar : Sidecar) (hide_root : option bool)
    (_tree : option Tree) : Tree :=
  let render := own_row sidecar self in
  let _tree :=
    match _tree with
    | None => mkTree render "tree.line" true []
    | Some t => Tree_add t render
    end in
  let _tree :=
    if is_expanded (match self with NFolder _ d _ _ => d | NLine _ => LINE end)
    then fold_left
           (fun t child =>
              match child with
              | NFolder _ _ _ _ => sidecar_under sidecar child t
              | NLine _ => Tree_add t (leaf_row sidecar child)
              end) (Node_children self) _tree
    else _tree in
  match hide_root, Tree_children _tree with
  | Some false, _ :: _ =>
      Tree_relabel_first
        (fun label =>
           "[bold " +:+ TH_TEXT +:+ "]" +:+ sidecar_title sidecar +:+ "[/]"
           +:+ newline_char +:+ label) _tree
  | _, _ => _tree
  end.

(** The nodes that are shown below a folder, in the order of the rows:
    the children of an expanded folder, each followed by what is shown
    below it. *)
Fixpoint shown (n : Node) : list Node :=
  match n with
  | NLine _ => []
  | NFolder _ d _ children =>
      if is_expanded d then flat_map (fun c => c :: shown c) children else []
  end.

(** The row of a node in the sidecar. *)
Definition row_of (sidecar : Sidecar) (n : Node) : string :=
  if isinstance_Folder n then own_row sidecar n else leaf_row sidecar n.

End Reach.

(** ** A small portfolio to run the definitions on

    Targets are absent, a ratio or an amount; a line holds its amount; a
    bucket is its name with the name, newline flag and amount of each of
    its lines, and hands them out in order while the requested amount
    covers them; [np.sum] adds the numbers to [0.0] from left to right. *)
Module Demo.

Inductive objective : Type :=
| NoTarget
| Ratio (r : float)
| Amount (x : float).

Record fetched : Type := mkFetched {
  account : string;
  holding : string;
  balance : float
}.

Definition bucket_data : Type := (string * list (string * bool * float))%type.

#[global] Instance carriers : Carriers := {|
  Target := objective;
  LineData := float;
  Bucket := bucket_data;
  Pool := unit;
  FetchLine := fetched
|}.

Definition line (name' : string) (newline' : bool) (perf' : option LinePerf)
    (currency' : option string) (target' : objective) (amount : float) : Line :=
  mkLine (mkNodeBase name' AssetClass_UNKNOWN AssetSubclass_UNKNOWN target' newline'
            perf' currency' None) amount.

Definition target_ideal (t : objective) : float :=
  match t with
  | Amount x => x
  | _ => 0
  end.

Definition target_to_dict (t : objective) : value :=
  match t with
  | NoTarget => VDict [("class", VStr "Target")]
  | Ratio r => VDict [("class", VStr "TargetRatio"); ("target_ratio", VFloat r)]
  | Amount x => VDict [("class", VStr "TargetMin"); ("target", VFloat x)]
  end.

Definition target_from_dict (v : value) : result objective :=
  cls ← field v "class" as_str;
  if String.eqb cls "Target" then Ok NoTarget
  else if String.eqb cls "TargetRatio" then
    field v "target_ratio" (fun x => match x with VFloat r => Ok (Ratio r) | _ => Raise TypeError end)
  else if String.eqb cls "TargetMin" then
    field v "target" (fun x => match x with VFloat r => Ok (Amount r) | _ => Raise TypeError end)
  else Raise ValueError.

Definition line_to_dict (l : Line) : value :=
  VDict [("type", VStr "line");
         ("name", VStr (name (Line_base l)));
         ("amount", VFloat (Line_data l));
         ("target", target_to_dict (target (Line_base l)));
         ("newline", VBool (newline (Line_base l)))].

Definition line_from_dict (v : value) (envelopes : gmap string Envelope) : result Line :=
  name' ← field v "name" as_str;
  amount ← field v "amount" (fun x => match x with VFloat a => Ok a | _ => Raise TypeError end);
  target' ← field v "target" target_from_dict;
  newline' ← field v "newline" (fun x => Ok (truthy x));
  Ok (line name' newline' None None target' amount).

(** The lines of [lines] that [amount] covers, in order. *)
Fixpoint take_upto (amount : float) (lines : list (string * bool * float)) : list Line :=
  match lines with
  | [] => []
  | (n, nl, a) :: rest =>
      if (a <=? amount)%float
      then line n nl None None NoTarget a :: take_upto (amount - a)%float rest
      else []
  end.

#[global] Instance collaborators : Collaborators := {|
  np_sum := fun xs => fold_left PrimFloat.add xs 0%float;
  Line_get_amount := fun l => Line_data l;
  Line_get_ideal := fun l => target_ideal (target (Line_base l));
  Line_get_currency := fun l => default "EUR" (currency (Line_base l));
  Line_get_perf := fun l => default (mkLinePerf 0 false) (perf (Line_base l));
  Line_process := fun l => l;
  Line_to_dict := line_to_dict;
  Line_from_dict := line_from_dict;
  Target_default := NoTarget;
  Target_is_set := fun t => match t with NoTarget => false | _ => true end;
  Target_get_ideal := target_ideal;
  Target_ratio := fun t => match t with Ratio r => Some r | _ => None end;
  Target_to_dict := target_to_dict;
  Target_from_dict := target_from_dict;
  Bucket_name := fun b => fst b;
  Bucket_lines := fun b => take_upto infinity (snd b);
  Bucket_use_amount := fun b amount p => (take_upto amount (snd b), p);
  FetchLine_account := account;
  FetchLine_generate_line :=
    fun f => line (holding f) false None None NoTarget (balance f);
  FetchLine_matches_line := fun f l => String.eqb (name (Line_base l)) (holding f)
|}.

Definition world : World := mkWorld tt [].

(** Two lines of equal ideal amount, expected to yield 5% and 15%. *)
Definition bonds : Line :=
  line "bonds" false (Some (mkLinePerf 0.05 false)) None (Amount 100) 80.
Definition stocks : Line :=
  line "stocks" false (Some (mkLinePerf 0.15 false)) None (Amount 100) 120.
Definition two_lines : Node :=
  Folder_init "invest" AssetClass_UNKNOWN AssetSubclass_UNKNOWN None
    (Some [NLine bonds; NLine stocks]) false EXPANDED None None None.

(** A bucket of two lines, the first of which asks for a blank line. *)
Definition cash : bucket_data :=
  ("cash", [("livret", true, 50%float); ("compte", false, 30%float)]).
Definition shared (amount : float) (newline' : bool) : Node :=
  SharedFolder_init "reserve" cash AssetClass_UNKNOWN AssetSubclass_UNKNOWN amount None
    newline' EXPANDED.

(** A folder with an envelope and a record fetched from that account. *)
Definition pea : Envelope := mkEnvelope "PEA" "pea-1".
Definition with_envelope : Node :=
  Folder_init "shares" AssetClass_UNKNOWN AssetSubclass_UNKNOWN None
    (Some [NLine stocks]) false EXPANDED None None (Some pea).
Definition etf : fetched := mkFetched "pea-1" "world etf" 1000.

(** A tree with a line, a folder and a shared folder. *)
Definition portfolio (amount : float) : Node :=
  Folder_init "Portfolio" AssetClass_UNKNOWN AssetSubclass_UNKNOWN (Some (Ratio 100))
    (Some [NLine bonds; two_lines; shared amount true]) true COLLAPSED None None None.
Definition buckets : gmap string Bucket := {[ "cash" := cash ]}.

(** That tree after [process], the shared folder asking for less than the
    first line of its bucket holds. *)
Definition processed_portfolio : Node :=
  match process (portfolio 10) world with
  | Ok (n, _) => n
  | Raise _ => portfolio 10
  end.

(** A folder with the empty string as currency over a line in dollars. *)
Definition wallet : Node :=
  Folder_init "wallet" AssetClass_UNKNOWN AssetSubclass_UNKNOWN None
    (Some [NLine (line "usd" false None (Some "USD") NoTarget 10)]) false EXPANDED
    None (Some "") None.

(** A folder whose children aim at [r1] and [r2] percent of it. *)
Definition split (r1 r2 : float) : Node :=
  Folder_init "split" AssetClass_UNKNOWN AssetSubclass_UNKNOWN None
    (Some [NLine (line "a" false None None (Ratio r1) 10);
           NLine (line "b" false None None (Ratio r2) 10)]) false EXPANDED
    None None None.

(** A portfolio over the same children, in euros. *)
Definition whole : Node :=
  Portfolio_init "Finary" (Some (Ratio 100))
    (Some [NLine bonds; two_lines; shared infinity true]) (Some "EUR").

(** A child dict of a type that [from_dict] does not know. *)
Definition option_dict : value := VDict [("type", VStr "option"); ("name", VStr "call")].

(** Rendering writes the format in front of the name, and a line adds one
    node with its rendering to the tree it is given. *)
#[global] Instance renderers : Renderers := {|
  RenderArgs := bool;
  no_args := true;
  unaligned := false;
  Node_render := fun n fmt _ => fmt +:+ " " +:+ name (Node_base n);
  Line_tree := fun l fmt _ t => Tree_add t (fmt +:+ " " +:+ name (Line_base l));
  TH_TREE_BRANCH := "grey";
  TH_TEXT := "white"
|}.


End Demo.

(** * Proofs *)

Section Proofs.
Context `{Collaborators}.

Ltac unfold_result :=
  unfold mbind, mret, fmap, result_bind, result_ret, result_fmap in *.

(** Induction over the tree, with the hypothesis on every child. *)
Lemma Node_tree_ind (P : Node -> Prop) :
  (forall l, P (NLine l)) ->
  (forall b d s cs, Forall P cs -> P (NFolder b d s cs)) ->
  forall n, P n.
Proof.
  intros Hline Hfolder.
  fix IH 1. intros [l | b d s cs].
  - apply Hline.
  - apply Hfolder. induction cs as [| c cs IHcs]; constructor; [apply IH | exact IHcs].
Qed.

(** ** Comprehensions *)

Lemma comprehension_length {A B} (f : A -> result B) xs ys :
  comprehension f xs = Ok ys -> length ys = length xs.
Proof.
  revert ys. induction xs as [| x xs IH]; intros ys; simpl.
  - intros [= <-]. reflexivity.
  - unfold_result. destruct (f x) as [y |]; [| discriminate].
    destruct (comprehension f xs) as [ys' |]; [| discriminate].
    intros [= <-]. simpl. f_equal. apply IH. reflexivity.
Qed.

Lemma comprehension_nil_inv {A B} (f : A -> result B) xs :
  comprehension f xs = Ok [] -> xs = [].
Proof.
  intros Hc. apply comprehension_length in Hc. destruct xs; [reflexivity | discriminate].
Qed.

Lemma map_fst_combine {A B} (xs : list A) (ys : list B) :
  length ys = length xs -> map fst (combine xs ys) = xs.
Proof.
  revert ys. induction xs as [| x xs IH]; intros [| y ys]; simpl; try discriminate; auto.
  intros [= Hlen]. f_equal. apply IH. exact Hlen.
Qed.

Lemma map_snd_combine {A B} (xs : list A) (ys : list B) :
  length ys = length xs -> map snd (combine xs ys) = ys.
Proof.
  revert ys. induction xs as [| x xs IH]; intros [| y ys]; simpl; try discriminate; auto.
  intros [= Hlen]. f_equal. apply IH. exact Hlen.
Qed.

(** ** [get_perf] in the order of the source *)

Lemma candidate_perfs_spec (f : Node -> result LinePerf) cs candidates :
  comprehension_if is_candidate cs = Ok candidates ->
  candidate_perfs (map (fun c => (c, f c)) cs) =
    perfs ← comprehension f candidates; Ok (combine candidates perfs).
Proof.
  revert candidates. induction cs as [| c cs IH]; intros candidates; simpl.
  - intros [= <-]. reflexivity.
  - unfold_result. destruct (is_candidate c) as [k |]; [| discriminate].
    destruct (comprehension_if is_candidate cs) as [ys |]; [| discriminate].
    intros [= <-]. specialize (IH ys eq_refl). destruct k; simpl.
    + destruct (f c) as [p |]; [| reflexivity]. rewrite IH.
      destruct (comprehension f ys); reflexivity.
    + exact IH.
Qed.

Lemma get_perf_folder ideal b d s children :
  get_perf ideal (NFolder b d s children) =
    candidates ← comprehension_if is_candidate children;
    perfs ← comprehension (get_perf ideal) candidates;
    Ok (weighted_perf ideal candidates perfs).
Proof.
  simpl. destruct (comprehension_if is_candidate children) as [candidates |] eqn:Hc;
    [| reflexivity].
  unfold_result. rewrite (candidate_perfs_spec _ _ _ Hc). unfold_result.
  destruct (comprehension (get_perf ideal) candidates) as [perfs |] eqn:Hp; [| reflexivity].
  apply comprehension_length in Hp.
  rewrite map_fst_combine, map_snd_combine by exact Hp. reflexivity.
Qed.





(** ** The weighted sum *)





(** ** The common currency *)

Lemma count_le x xs : count x xs <= length xs.
Proof.
  unfold count. induction xs as [| y ys IH]; simpl; [lia |].
  destruct (String.eqb x y); simpl; lia.
Qed.

Lemma count_all x xs : count x xs = length xs <-> Forall (fun y => y = x) xs.
Proof.
  induction xs as [| y ys IH].
  - split; [constructor | reflexivity].
  - pose proof (count_le x ys) as Hle. unfold count in *. simpl.
    destruct (String.eqb_spec x y) as [-> | Hne]; simpl.
    + split.
      * intros [= Hc]. constructor; [reflexivity | apply IH; exact Hc].
      * intros Hall. inversion Hall; subst. f_equal. apply IH. assumption.
    + split.
      * intros Hc. lia.
      * intros Hall. inversion Hall; subst. congruence.
Qed.

Lemma common_currency_spec currencies c :
  (currencies <> [] -> Forall (fun y => y = c) currencies -> common_currency currencies = c)
  /\ (common_currency currencies = c -> c <> "#" ->
      currencies <> [] /\ Forall (fun y => y = c) currencies).
Proof.
  unfold common_currency. destruct currencies as [| first rest].
  - split; [contradiction | congruence].
  - destruct (Nat.eqb_spec (count first (first :: rest)) (length (first :: rest)))
      as [Hall | Hdiff].
    + apply count_all in Hall. split.
      * intros _ Hc. inversion Hc; subst. reflexivity.
      * intros <- _. split; [discriminate | exact Hall].
    + split.
      * intros _ Hc. exfalso. apply Hdiff. apply count_all.
        inversion Hc; subst. exact Hc.
      * congruence.
Qed.

(** C7. [get_currency] of a folder returns a currency [c] exactly when the
    folder has a child and [get_currency] of every child returns [c]; in
    every other case (no child, or children that disagree) it returns the
    sentinel ["#"]. *)
Theorem get_currency_common b d s children :
  (forall c, children <> [] ->
     Forall (fun child => get_currency child = c) children ->
     get_currency (NFolder b d s children) = c)
  /\ (forall c, c <> "#" ->
       (get_currency (NFolder b d s children) = c <->
        children <> [] /\ Forall (fun child => get_currency child = c) children))
  /\ (children = [] \/ ~ (exists c, Forall (fun child => get_currency child = c) children) ->
      get_currency (NFolder b d s children) = "#").
Proof.
  assert (Hmap : forall c,
    Forall (fun y => y = c) (map get_currency children) <->
    Forall (fun child => get_currency child = c) children) by (intros c; apply List.Forall_map).
  assert (Hnil : map get_currency children <> [] <-> children <> []).
  { destruct children; simpl; split; congruence. }
  cbn [get_currency]. split; [| split].
  - intros c Hne Hall. apply common_currency_spec; [apply Hnil | apply Hmap]; assumption.
  - intros c Hc. split.
    + intros Hget. destruct (common_currency_spec (map get_currency children) c) as [_ Hinv].
      destruct (Hinv Hget Hc) as [Hne Hall]. split; [apply Hnil | apply Hmap]; assumption.
    + intros [Hne Hall]. apply common_currency_spec; [apply Hnil | apply Hmap]; assumption.
  - intros Hother.
    destruct (decide (common_currency (map get_currency children) = "#")) as [Heq | Hne];
      [exact Heq | exfalso].
    destruct (common_currency_spec (map get_currency children)
                (common_currency (map get_currency children))) as [_ Hinv].
    destruct (Hinv eq_refl Hne) as [Hcs Hall]. destruct Hother as [-> | Hnone].
    + apply Hcs. reflexivity.
    + apply Hnone. eexists. apply Hmap. exact Hall.
Qed.

(** ** Attribute propagation *)

Lemma attach_base b child :
  Node_base (attach b child) =
    inherit (asset_class b) (asset_subclass b) (perf b) (currency b) (envelope b)
            (Node_base child).
Proof. destruct child; reflexivity. Qed.

Lemma str_truthy_Some cur : cur <> "" -> str_truthy (Some cur) = true.
Proof.
  intros Hne. simpl. destruct (String.eqb_spec cur ""); [contradiction | reflexivity].
Qed.

(** C5, amended. A child is attached by [Folder.__init__] and by
    [add_child] through [set_child_attribs] with the folder's own
    attributes. Its asset class and subclass are overwritten only when
    they are [UNKNOWN]; its currency is overwritten whenever the folder
    has a currency that is neither null nor the empty string, and kept
    otherwise; its envelope is overwritten whenever the folder has one;
    its performance is overwritten only when the folder has one and the
    child has none or one with [expected == 0]. *)
Theorem attach_rules b child :
  (forall d s cs,
     Node_children (add_child (NFolder b d s cs) child) = cs ++ [attach b child])
  /\ (forall t cs nl d,
       Node_children
         (Folder_init (name b) (asset_class b) (asset_subclass b) t (Some cs) nl d
            (perf b) (currency b) (envelope b)) =
       map (attach (mkNodeBase (name b) (asset_class b) (asset_subclass b)
                      (default Target_default t) nl (perf b) (currency b) (envelope b))) cs)
  /\ (asset_class (Node_base child) <> AssetClass_UNKNOWN ->
      asset_class (Node_base (attach b child)) = asset_class (Node_base child))
  /\ (asset_class (Node_base child) = AssetClass_UNKNOWN ->
      asset_class (Node_base (attach b child)) = asset_class b)
  /\ (asset_subclass (Node_base child) <> AssetSubclass_UNKNOWN ->
      asset_subclass (Node_base (attach b child)) = asset_subclass (Node_base child))
  /\ (asset_subclass (Node_base child) = AssetSubclass_UNKNOWN ->
      asset_subclass (Node_base (attach b child)) = asset_subclass b)
  /\ (forall cur, currency b = Some cur -> cur <> "" ->
      currency (Node_base (attach b child)) = Some cur)
  /\ (currency b = None \/ currency b = Some "" ->
      currency (Node_base (attach b child)) = currency (Node_base child))
  /\ (forall e, envelope b = Some e -> envelope (Node_base (attach b child)) = Some e)
  /\ (envelope b = None ->
      envelope (Node_base (attach b child)) = envelope (Node_base child))
  /\ (forall p, perf b = Some p ->
      perf (Node_base child) = None \/
      (exists q, perf (Node_base child) = Some q /\ (expected q =? 0)%float = true) ->
      perf (Node_base (attach b child)) = Some p)
  /\ (perf (Node_base (attach b child)) <> perf (Node_base child) ->
      perf (Node_base (attach b child)) = perf b /\
      (perf (Node_base child) = None \/
       exists q, perf (Node_base child) = Some q /\ (expected q =? 0)%float = true)).
Proof.
  rewrite attach_base. unfold inherit. cbn [asset_class asset_subclass currency envelope perf].
  repeat match goal with |- _ /\ _ => split end.
  - reflexivity.
  - reflexivity.
  - intros Hne. destruct (decide _); [contradiction | reflexivity].
  - intros Heq. destruct (decide _); [reflexivity | contradiction].
  - intros Hne. destruct (decide _); [contradiction | reflexivity].
  - intros Heq. destruct (decide _); [reflexivity | contradiction].
  - intros cur -> Hne. rewrite str_truthy_Some by exact Hne. reflexivity.
  - intros [-> | ->]; reflexivity.
  - intros e ->. reflexivity.
  - intros ->. reflexivity.
  - intros p -> [-> | (q & -> & Hq)]; [reflexivity |].
    rewrite Hq. reflexivity.
  - destruct (perf b) as [p |]; [| congruence].
    destruct (perf (Node_base child)) as [q |] eqn:Hown.
    + destruct (expected q =? 0)%float eqn:Hq; [| congruence].
      intros _. split; [reflexivity |]. right. exists q. split; [reflexivity |].
      exact Hq.
    + intros _. split; [reflexivity | left; reflexivity].
Qed.

(** ** The processing pass *)

Lemma add_ratio_sum children total :
  fold_left add_ratio children total =
  fold_left (fun total r => (total + r)%float)
    (flat_map (fun c => match Target_ratio (target (Node_base c)) with
                        | Some r => [r]
                        | None => []
                        end) children) total.
Proof.
  revert total. induction children as [| c cs IH]; intros total; [reflexivity |].
  cbn [fold_left flat_map]. rewrite IH, fold_left_app. f_equal. unfold add_ratio.
  destruct (Target_ratio (target (Node_base c))); reflexivity.
Qed.

Lemma ratio_off_iff x :
  ratio_off x = true <-> (x =? 0)%float = false /\ (x =? 100)%float = false.
Proof. unfold ratio_off. rewrite andb_true_iff, !negb_true_iff. reflexivity. Qed.

Lemma process_children_spec children :
  Forall (fun c => forall w, succeeds (process c w)) children ->
  forall total w,
  exists children' w1,
    processed children w children' w1 /\
    process_children process children total w =
      Ok (children', fold_left add_ratio children' total, w1).
Proof.
  induction 1 as [| c cs Hc _ IH]; intros total w.
  - exists [], w. split; [constructor | reflexivity].
  - destruct (Hc w) as [[c' w1] Hcw].
    destruct (IH (add_ratio total c') w1) as (cs' & w2 & Hcs & Hloop).
    exists (c' :: cs'), w2. split; [econstructor; eassumption |].
    simpl. rewrite Hcw. unfold_result. simpl. rewrite Hloop. reflexivity.
Qed.

Lemma Folder_process_spec b d s children w :
  Forall (fun c => forall w, succeeds (process c w)) children ->
  exists children' w1,
    processed children w children' w1 /\
    Folder_process process b d s children w =
      Ok (NFolder b d s children',
          if ratio_off (ratio_sum children')
          then console_log (ratio_warning (name b)) w1 else w1).
Proof.
  intros Hall.
  destruct (process_children_spec children Hall 0%float w) as (cs' & w1 & Hcs & Hloop).
  exists cs', w1. split; [exact Hcs |].
  unfold Folder_process. rewrite Hloop. unfold_result. cbn [fst snd].
  rewrite add_ratio_sum. reflexivity.
Qed.

Lemma update_last_app {A} (f : A -> A) (init : list A) (x : A) :
  update_last f (init ++ [x]) = Ok (init ++ [f x]).
Proof.
  induction init as [| y init IH]; [reflexivity |].
  change ((y :: init) ++ [x]) with (y :: (init ++ [x])).
  cbn [update_last]. rewrite IH. destruct (init ++ [x]) eqn:Happ.
  - destruct init; discriminate.
  - reflexivity.
Qed.

Lemma nonempty_last {A} (xs : list A) :
  xs <> [] -> exists init x, xs = init ++ [x].
Proof.
  intros Hne. destruct (exists_last Hne) as (init & x & ->). exists init, x. reflexivity.
Qed.

Lemma SharedFolder_process_spec b d s children w :
  Forall (fun c => forall w, succeeds (process c w)) children ->
  exists old w1,
    Folder_process process b d (Some s) children w = Ok (old, w1) /\
    (fst (Bucket_use_amount (bucket s) (target_amount s) (pool w1)) = [] ->
     process (NFolder b d (Some s) children) w =
       Ok (NFolder b d (Some s) [],
           mkWorld (snd (Bucket_use_amount (bucket s) (target_amount s) (pool w1)))
                   (console w1))) /\
    (forall earlier last_line,
       fst (Bucket_use_amount (bucket s) (target_amount s) (pool w1)) =
         earlier ++ [last_line] ->
       process (NFolder b d (Some s) children) w =
         Ok (NFolder b d (Some s)
               (map NLine earlier ++ [Node_set_newline (newline b) (NLine last_line)]),
             mkWorld (snd (Bucket_use_amount (bucket s) (target_amount s) (pool w1)))
                     (console w1))).
Proof.
  intros Hall.
  destruct (Folder_process_spec b d (Some s) children w Hall) as (cs' & w1 & _ & Hfolder).
  eexists _, _. split; [exact Hfolder |].
  cbn [process]. unfold SharedFolder_process. rewrite Hfolder. unfold_result. cbn [fst snd].
  set (w2 := if ratio_off (ratio_sum cs') then _ else _).
  destruct (Bucket_use_amount (bucket s) (target_amount s) (pool w2)) as [lines p'].
  cbn [fst snd]. split.
  - intros ->. reflexivity.
  - intros earlier last_line ->. rewrite map_app. cbn [map].
    rewrite update_last_app.
    destruct (map NLine earlier ++ [NLine last_line]) eqn:Happ.
    + destruct (map NLine earlier); discriminate.
    + reflexivity.
Qed.

Lemma process_total n : forall w, succeeds (process n w).
Proof.
  induction n as [l | b d s cs IH] using Node_tree_ind; intros w.
  - eexists. reflexivity.
  - destruct s as [s |].
    + destruct (SharedFolder_process_spec b d s cs w IH) as (old & w1 & _ & Hnil & Hlast).
      destruct (fst (Bucket_use_amount (bucket s) (target_amount s) (pool w1))) as [| x xs]
        eqn:Hused.
      * eexists. apply Hnil. reflexivity.
      * destruct (nonempty_last (x :: xs)) as (init & y & Hxs); [discriminate |].
        eexists. apply (Hlast init y). exact Hxs.
    + destruct (Folder_process_spec b d None cs w IH) as (cs' & w1 & _ & Hfolder).
      eexists. exact Hfolder.
Qed.

Lemma children_process_total (children : list Node) :
  Forall (fun c => forall w, succeeds (process c w)) children.
Proof. apply Forall_forall. intros c _. apply process_total. Qed.

(** C6. [Folder.process] runs [process] on every child in order and none
    of them raises; it adds to [0.0], one after the other, the
    [target_ratio] of the children whose target is a ratio, returns
    without raising, and logs its warning exactly when the float it has
    accumulated equals neither 0 nor 100: a sum that is off changes
    nothing but the console. *)
Theorem Folder_process_advisory b d s children w :
  exists children' w1,
    processed children w children' w1 /\
    Folder_process process b d s children w =
      Ok (NFolder b d s children',
          if ratio_off (ratio_sum children')
          then console_log (ratio_warning (name b)) w1 else w1) /\
    (ratio_off (ratio_sum children') = true <->
     (ratio_sum children' =? 0)%float = false /\
     (ratio_sum children' =? 100)%float = false) /\
    process (NFolder b d None children) w = Folder_process process b d None children w.
Proof.
  destruct (Folder_process_spec b d s children w (children_process_total children))
    as (cs' & w1 & Hcs & Hfolder).
  exists cs', w1. split; [exact Hcs |]. split; [exact Hfolder |].
  split; [apply ratio_off_iff | reflexivity].
Qed.

(** C1, amended. [SharedFolder.process] never raises. When the bucket
    hands out a non-empty sequence of lines, these become the children:
    the last one with its newline flag set to the folder's own, every
    earlier one as the bucket handed it out, with the newline flag it had. *)
Theorem SharedFolder_process_newline b d s children w :
  exists old w1,
    Folder_process process b d (Some s) children w = Ok (old, w1) /\
    (fst (Bucket_use_amount (bucket s) (target_amount s) (pool w1)) <> [] ->
     exists earlier last_line self' w',
       fst (Bucket_use_amount (bucket s) (target_amount s) (pool w1)) =
         earlier ++ [last_line] /\
       process (NFolder b d (Some s) children) w = Ok (self', w') /\
       Node_base self' = b /\
       Node_children self' =
         map NLine earlier ++ [Node_set_newline (newline b) (NLine last_line)] /\
       newline (Node_base (Node_set_newline (newline b) (NLine last_line))) = newline b).
Proof.
  destruct (SharedFolder_process_spec b d s children w (children_process_total children))
    as (old & w1 & Hfolder & _ & Hlast).
  exists old, w1. split; [exact Hfolder |]. intros Hne.
  destruct (nonempty_last _ Hne) as (earlier & last_line & Hused).
  exists earlier, last_line. eexists _, _. split; [exact Hused |].
  split; [apply Hlast; exact Hused |]. repeat split.
Qed.

(** C9. When the bucket hands out no line, [SharedFolder.process] returns
    without raising: the folder is left without children and with its own
    fields, the newline flag among them, as they were; the assignment to
    the last child, which raises on an empty list, is not reached. *)
Theorem SharedFolder_process_empty b d s children w :
  exists old w1,
    Folder_process process b d (Some s) children w = Ok (old, w1) /\
    (fst (Bucket_use_amount (bucket s) (target_amount s) (pool w1)) = [] ->
     process (NFolder b d (Some s) children) w =
       Ok (NFolder b d (Some s) [],
           mkWorld (snd (Bucket_use_amount (bucket s) (target_amount s) (pool w1)))
                   (console w1))) /\
    update_last (Node_set_newline (newline b)) [] = Raise IndexError.
Proof.
  destruct (SharedFolder_process_spec b d s children w (children_process_total children))
    as (old & w1 & Hfolder & Hnil & _).
  exists old, w1. split; [exact Hfolder |]. split; [exact Hnil | reflexivity].
Qed.

(** ** Matching fetched records *)

Lemma scan_children_app rec fetch_line i xs ys :
  scan_children rec fetch_line i (xs ++ ys) =
    (fst (scan_children rec fetch_line i xs)
       ++ fst (scan_children rec fetch_line (i + length xs) ys),
     snd (scan_children rec fetch_line i xs)
       ++ snd (scan_children rec fetch_line (i + length xs) ys)).
Proof.
  revert i. induction xs as [| x xs IH]; intros i.
  - simpl. rewrite Nat.add_0_r. destruct (scan_children rec fetch_line i ys). reflexivity.
  - change ((x :: xs) ++ ys) with (x :: (xs ++ ys)). cbn [scan_children fst snd].
    rewrite IH. cbn [fst snd length].
    replace (i + S (length xs)) with (S i + length xs) by lia.
    rewrite <- app_assoc. reflexivity.
Qed.

Lemma scan_children_length rec fetch_line i children :
  length (snd (scan_children rec fetch_line i children)) = length children.
Proof.
  revert i. induction children as [| c cs IH]; intros i; [reflexivity |].
  cbn [scan_children snd length]. rewrite IH. reflexivity.
Qed.


Lemma match_lines_folder fetch_line self :
  match_lines fetch_line self = Folder_match_lines (match_lines fetch_line) fetch_line self.
Proof.
  destruct self as [l | b d s children]; [reflexivity |].
  cbn [match_lines Folder_match_lines].
  destruct (envelope_matches b fetch_line); [| reflexivity].
  cbn [add_child Node_children]. rewrite scan_children_app. cbn [fst snd]. reflexivity.
Qed.





(** ** Serialization *)

Lemma getitem_then_spec {R} key (k : value -> result R) entries :
  getitem_then key k entries = v ← getitem entries key; k v.
Proof.
  induction entries as [| [k' v] rest IH]; [reflexivity |].
  simpl. destruct (String.eqb k' key); [reflexivity | exact IH].
Qed.

(** [Folder.from_dict] in the order of the source. *)
Lemma Folder_from_dict_eq buckets envelopes dict :
  Folder_from_dict buckets envelopes dict =
    children_v ← subscript dict "children";
    children ← for_each_child
                 (children_from_dicts (Folder_from_dict buckets envelopes) buckets envelopes)
                 children_v;
    Folder_of_fields dict children.
Proof.
  destruct dict; try reflexivity.
  cbn [Folder_from_dict subscript]. rewrite getitem_then_spec. unfold_result.
  destruct (getitem entries "children"); reflexivity.
Qed.

Lemma inherit_default b :
  inherit AssetClass_UNKNOWN AssetSubclass_UNKNOWN None None None b = b.
Proof.
  destruct b as [n ac asc t nl p cur env]. unfold inherit. cbn.
  destruct (decide (ac = AssetClass_UNKNOWN)) as [-> |];
    destruct (decide (asc = AssetSubclass_UNKNOWN)) as [-> |]; reflexivity.
Qed.

Lemma set_child_attribs_default child :
  set_child_attribs AssetClass_UNKNOWN AssetSubclass_UNKNOWN None None None child = child.
Proof.
  induction child as [[b x] | b d s cs IH] using Node_tree_ind; cbn [set_child_attribs].
  - cbn [Line_base Line_data]. rewrite inherit_default. reflexivity.
  - rewrite inherit_default. f_equal.
    induction IH as [| c cs Hc _ IHcs]; [reflexivity |]. cbn [map]. rewrite Hc, IHcs.
    reflexivity.
Qed.

Lemma map_default_attribs (children : list Node) :
  map (set_child_attribs AssetClass_UNKNOWN AssetSubclass_UNKNOWN None None None) children
  = children.
Proof.
  induction children as [| c cs IH]; [reflexivity |].
  cbn [map]. rewrite set_child_attribs_default, IH. reflexivity.
Qed.

Lemma Folder_init_default name' target' children' newline' display' :
  Folder_init name' AssetClass_UNKNOWN AssetSubclass_UNKNOWN (Some target')
    (Some children') newline' display' None None None =
  NFolder (mkNodeBase name' AssetClass_UNKNOWN AssetSubclass_UNKNOWN target' newline'
             None None None) display' None children'.
Proof.
  unfold Folder_init, attach. cbn [default asset_class asset_subclass perf currency envelope].
  rewrite map_default_attribs. reflexivity.
Qed.

Lemma SharedFolder_init_default name' bucket' amount target' newline' display' :
  SharedFolder_init name' bucket' AssetClass_UNKNOWN AssetSubclass_UNKNOWN amount
    (Some target') newline' display' =
  NFolder (mkNodeBase name' AssetClass_UNKNOWN AssetSubclass_UNKNOWN target' newline'
             None None None) display' (Some (mkSharedPart bucket' amount))
    (map NLine (Bucket_lines bucket')).
Proof.
  unfold SharedFolder_init, Folder_init, attach.
  cbn [default asset_class asset_subclass perf currency envelope].
  rewrite map_default_attribs. reflexivity.
Qed.

Lemma FolderDisplay_roundtrip d :
  FolderDisplay_of_value (VInt (FolderDisplay_value d)) = Ok d.
Proof. destruct d; reflexivity. Qed.

(** What [Folder.from_dict] returns has the defaults of [Folder.__init__]
    for the fields that [to_dict] leaves out. *)
Lemma Folder_from_dict_defaults buckets envelopes dict self' :
  Folder_from_dict buckets envelopes dict = Ok self' ->
  default_attributes (Node_base self') /\ isinstance_SharedFolder self' = false.
Proof.
  rewrite Folder_from_dict_eq. unfold_result.
  destruct (subscript dict "children") as [children_v |]; [| discriminate].
  destruct (for_each_child _ children_v) as [children |]; [| discriminate].
  unfold Folder_of_fields, field. unfold_result.
  destruct (subscript dict "name") as [v1 |]; [| discriminate].
  destruct (as_str v1) as [name' |]; [| discriminate].
  destruct (subscript dict "target") as [v2 |]; [| discriminate].
  destruct (Target_from_dict v2) as [target' |]; [| discriminate].
  destruct (subscript dict "display") as [v3 |]; [| discriminate].
  destruct (FolderDisplay_of_value v3) as [display' |]; [| discriminate].
  destruct (subscript dict "newline") as [v4 |]; [| discriminate].
  rewrite Folder_init_default. intros [= <-]. repeat split.
Qed.

(** C10. [Folder.to_dict] emits exactly the keys [type], [name], [target],
    [children], [newline] and [display]; the dict does not depend on the
    folder's asset class, asset subclass, performance, currency or
    envelope, and the folder that [Folder.from_dict] builds from it has
    [UNKNOWN] asset class and subclass and no performance, currency or
    envelope of its own. *)
Theorem Folder_to_dict_keys b d children :
  keys (to_dict (NFolder b d None children)) =
    ["type"; "name"; "target"; "children"; "newline"; "display"]
  /\ (forall ac asc p cur env,
       to_dict (NFolder (mkNodeBase (name b) ac asc (target b) (newline b) p cur env)
                  d None children) =
       to_dict (NFolder b d None children))
  /\ (forall buckets envelopes self',
       Folder_from_dict buckets envelopes (to_dict (NFolder b d None children)) = Ok self' ->
       default_attributes (Node_base self')).
Proof.
  split; [reflexivity |]. split; [reflexivity |].
  intros buckets envelopes self' Hfrom.
  apply (Folder_from_dict_defaults buckets envelopes _ _ Hfrom).
Qed.

Section RoundTrip.
Variable buckets : gmap string Bucket.
Variable envelopes : gmap string Envelope.
Variable line_ok : Line -> Line -> Prop.
Hypothesis Target_roundtrip : forall t, Target_from_dict (Target_to_dict t) = Ok t.
Hypothesis Line_roundtrip : forall l l',
  Line_from_dict (Line_to_dict l) envelopes = Ok l' -> line_ok l l'.

Lemma SharedFolder_roundtrip b d s children bucket' :
  buckets !! Bucket_name (bucket s) = Some bucket' ->
  SharedFolder_from_dict (to_dict (NFolder b d (Some s) children)) buckets =
    Ok (NFolder (mkNodeBase (name b) AssetClass_UNKNOWN AssetSubclass_UNKNOWN (target b)
                   (newline b) None None None) d
          (Some (mkSharedPart bucket' (target_amount s)))
          (map NLine (Bucket_lines bucket'))).
Proof.
  intros Hbucket. unfold SharedFolder_from_dict, field, lookup_bucket.
  cbn [to_dict subscript getitem String.eqb Ascii.eqb Bool.eqb]. unfold_result.
  cbn [as_str as_float]. rewrite Hbucket, Target_roundtrip, FolderDisplay_roundtrip.
  cbn [truthy]. rewrite SharedFolder_init_default. reflexivity.
Qed.

Lemma Folder_of_fields_roundtrip b d children children' :
  Folder_of_fields (to_dict (NFolder b d None children)) children' =
    Ok (NFolder (mkNodeBase (name b) AssetClass_UNKNOWN AssetSubclass_UNKNOWN (target b)
                   (newline b) None None None) d None children').
Proof.
  unfold Folder_of_fields, field.
  cbn [to_dict subscript getitem String.eqb Ascii.eqb Bool.eqb]. unfold_result.
  cbn [as_str]. rewrite Target_roundtrip, FolderDisplay_roundtrip.
  cbn [truthy]. rewrite Folder_init_default. reflexivity.
Qed.

(** One turn of the loop of [from_dict] over the dict of a child. *)
Lemma child_roundtrip (c : Node) :
  (isinstance_Folder c = true -> isinstance_SharedFolder c = false ->
   exists c', Folder_from_dict buckets envelopes (to_dict c) = Ok c' /\
              rebuilt_as line_ok buckets envelopes c c') ->
  serializable buckets envelopes c ->
  exists c',
    child_from_dict (Folder_from_dict buckets envelopes) buckets envelopes (to_dict c)
      = Ok [c'] /\
    rebuilt_as line_ok buckets envelopes c c'.
Proof.
  intros IH Hser. unfold child_from_dict. destruct c as [l | b d [s |] cs].
  - cbn [serializable to_dict] in *. destruct Hser as [Htype [l' Hl']].
    exists (NLine l'). rewrite Htype. unfold_result. cbn [type_is]. rewrite Hl'.
    split; [reflexivity | constructor; [exact Hl' | apply Line_roundtrip; exact Hl']].
  - cbn [serializable] in Hser. destruct Hser as [bucket' Hbucket].
    eexists. split.
    + cbn [to_dict subscript getitem String.eqb Ascii.eqb Bool.eqb type_is]. unfold_result.
      change (VDict _) with (to_dict (NFolder b d (Some s) cs)).
      rewrite (SharedFolder_roundtrip b d s cs bucket' Hbucket). reflexivity.
    + apply (rebuilt_shared _ _ _ b _ d s (mkSharedPart bucket' (target_amount s)) cs);
        repeat split. exact Hbucket.
  - destruct (IH eq_refl eq_refl) as (c' & Hfrom & Hrebuilt). exists c'. split; [| exact Hrebuilt].
    cbn [to_dict subscript getitem String.eqb Ascii.eqb Bool.eqb type_is]. unfold_result.
    change (VDict _) with (to_dict (NFolder b d None cs)). rewrite Hfrom. reflexivity.
Qed.

Lemma children_roundtrip (children : list Node) :
  Forall (fun c =>
            isinstance_Folder c = true -> isinstance_SharedFolder c = false ->
            serializable buckets envelopes c ->
            exists c', Folder_from_dict buckets envelopes (to_dict c) = Ok c' /\
                       rebuilt_as line_ok buckets envelopes c c') children ->
  fold_right (fun c rest => serializable buckets envelopes c /\ rest) True children ->
  exists children',
    children_from_dicts (Folder_from_dict buckets envelopes) buckets envelopes
      (map to_dict children) = Ok children' /\
    Forall2 (rebuilt_as line_ok buckets envelopes) children children'.
Proof.
  induction 1 as [| c cs Hc _ IH]; cbn [fold_right map children_from_dicts].
  - intros _. exists []. split; [reflexivity | constructor].
  - intros [Hser Hrest]. destruct (IH Hrest) as (cs' & Hloop & Hall).
    destruct (child_roundtrip c) as (c' & Hturn & Hrebuilt); [auto | exact Hser |].
    exists (c' :: cs'). rewrite Hturn, Hloop. split; [reflexivity |].
    constructor; assumption.
Qed.

Lemma Folder_roundtrip (self : Node) :
  isinstance_Folder self = true -> isinstance_SharedFolder self = false ->
  serializable buckets envelopes self ->
  exists self',
    Folder_from_dict buckets envelopes (to_dict self) = Ok self' /\
    rebuilt_as line_ok buckets envelopes self self'.
Proof.
  induction self as [l | b d s cs IH] using Node_tree_ind; [discriminate |].
  destruct s as [s |]; [discriminate |]. intros _ _ Hser. cbn [serializable] in Hser.
  destruct (children_roundtrip cs IH Hser) as (cs' & Hloop & Hall).
  eexists. split.
  - rewrite Folder_from_dict_eq.
    cbn [to_dict subscript getitem String.eqb Ascii.eqb Bool.eqb for_each_child].
    unfold_result. cbn [for_each_child]. rewrite Hloop.
    change (VDict _) with (to_dict (NFolder b d None cs)).
    apply Folder_of_fields_roundtrip.
  - constructor; [repeat split | repeat split | exact Hall].
Qed.

End RoundTrip.

(** C8, amended. Let every target come back from its dict, every line
    that [Line.from_dict] reads back from the dict of a line have the
    name, the newline flag and the target of that line, every line under
    a folder of the tree serialize to a dict of type ["line"] that
    [Line.from_dict] reads with the table of envelopes, and the table of
    buckets hold the name of every shared folder's bucket. Then
    [Folder.from_dict] of [Folder.to_dict] of a folder succeeds, and the
    tree it builds has the name, display, newline and target of the
    original, with children of the same classes, one for one: a line
    with the name, newline and target of the original line, a folder
    rebuilt in the same way, and a shared folder with the same name,
    display, newline, target and target amount, whose own children are
    the lines of the bucket found in the table. *)
Theorem to_dict_from_dict_rebuilds buckets envelopes b d children :
  (forall t, Target_from_dict (Target_to_dict t) = Ok t) ->
  (forall l l',
     Line_from_dict (Line_to_dict l) envelopes = Ok l' ->
     same_fields (Line_base l) (Line_base l')) ->
  serializable buckets envelopes (NFolder b d None children) ->
  exists self',
    Folder_from_dict buckets envelopes (to_dict (NFolder b d None children)) = Ok self' /\
    rebuilt buckets envelopes (NFolder b d None children) self'.
Proof.
  intros Htarget Hline Hser.
  apply Folder_roundtrip; [exact Htarget | exact Hline | reflexivity | reflexivity | exact Hser].
Qed.

End Proofs.

(** * The definitions at work *)

Example process_logs_ratio_warning :
  exists self',
    process (Demo.split 40 50) Demo.world =
      Ok (self', mkWorld tt [ratio_warning "split"]).
Proof. eexists. reflexivity. Qed.

Example process_is_silent_at_100 :
  exists self', process (Demo.split 60 40) Demo.world = Ok (self', Demo.world).
Proof. eexists. reflexivity. Qed.

(** The sum of the ratios is the float that the additions leave: 12.3 and
    87.7 add up to 100.0, and 23.7, 69.4 and 6.9 to 100.00000000000001. *)
Example process_adds_floats :
  (exists self', process (Demo.split 12.3 87.7) Demo.world = Ok (self', Demo.world)) /\
  (23.7 + 69.4 + 6.9 =? 100)%float = false /\
  (12.3 + 87.7 =? 100)%float = true.
Proof. split; [eexists; reflexivity | split; reflexivity]. Qed.

Example get_perf_of_two_lines :
  get_perf true Demo.two_lines = Ok (mkLinePerf 0.1 false) /\
  get_perf false Demo.two_lines = Ok (mkLinePerf (0.4 * 0.05 + 0.6 * 0.15) false) /\
  get_currency Demo.two_lines = "EUR" /\
  get_amount Demo.two_lines = 200%float.
Proof. repeat split. Qed.

(** Two candidates that both expect 0.05, weighted 3 to 7: the weighted
    sum is the float below 0.05. *)
Example get_perf_rounds :
  get_perf false
    (NFolder (Node_base Demo.two_lines) EXPANDED None
       [NLine (Demo.line "a" false (Some (mkLinePerf 0.05 false)) None Demo.NoTarget 3);
        NLine (Demo.line "b" false (Some (mkLinePerf 0.05 false)) None Demo.NoTarget 7)]) =
  Ok (mkLinePerf 0x1.9999999999999p-5 false).
Proof. reflexivity. Qed.

Example from_dict_drops_envelope :
  envelope (Node_base Demo.with_envelope) = Some Demo.pea /\
  exists self',
    Folder_from_dict ∅ ∅ (to_dict Demo.with_envelope) = Ok self' /\
    envelope (Node_base self') = None /\
    name (Node_base self') = "shares".
Proof. split; [reflexivity |]. eexists. repeat split. Qed.

Example process_without_allocation :
  process (Demo.shared 10 true) Demo.world =
    Ok (NFolder (Node_base (Demo.shared 10 true)) EXPANDED
          (Some (mkSharedPart Demo.cash 10)) [], Demo.world).
Proof. reflexivity. Qed.

(** C1 as the specification words it does not hold: the first of two allocated lines keeps
    the newline flag the bucket gave it. *)
Lemma earlier_child_keeps_newline :
  exists self' w' first last_child,
    process (Demo.shared infinity false) Demo.world = Ok (self', w') /\
    Node_children self' = [first; last_child] /\
    newline (Node_base first) = true /\
    newline (Node_base last_child) = false.
Proof. do 4 eexists. repeat split. Qed.





(** C5 as the specification words it does not hold: the folder's currency is not null,
    and the child keeps its own. *)
Lemma empty_currency_not_propagated :
  exists child',
    currency (Node_base Demo.wallet) = Some "" /\
    Node_children Demo.wallet = [child'] /\
    currency (Node_base child') = Some "USD".
Proof. eexists. repeat split. Qed.

(** C8 as the specification words it does not hold: after [process] the shared folder has
    no child, and the tree read back from the dict has one with two. *)
Lemma shared_children_not_rebuilt :
  exists self' shared shared',
    Folder_from_dict Demo.buckets ∅ (to_dict Demo.processed_portfolio) = Ok self' /\
    Node_children Demo.processed_portfolio !! 2%nat = Some shared /\
    Node_children self' !! 2%nat = Some shared' /\
    isinstance_SharedFolder shared = true /\
    isinstance_SharedFolder shared' = true /\
    Node_children shared = [] /\
    length (Node_children shared') = 2.
Proof.
  let r := eval vm_compute in
             (Folder_from_dict Demo.buckets ∅ (to_dict Demo.processed_portfolio)) in
  match r with Ok ?n => exists n end.
  let r := eval vm_compute in (Node_children Demo.processed_portfolio !! 2%nat) in
  match r with Some ?n => exists n end.
  eexists. split; [vm_compute; reflexivity |]. split; [vm_compute; reflexivity |].
  split; [reflexivity |]. repeat split.
Qed.

Lemma to_dict_from_dict_rebuilds_witness :
  exists self',
    Folder_from_dict Demo.buckets ∅
      (to_dict (NFolder (Node_base (Demo.portfolio infinity)) COLLAPSED None
                  (Node_children (Demo.portfolio infinity)))) = Ok self' /\
    rebuilt Demo.buckets ∅
      (NFolder (Node_base (Demo.portfolio infinity)) COLLAPSED None
         (Node_children (Demo.portfolio infinity))) self'.
Proof.
  apply (to_dict_from_dict_rebuilds Demo.buckets ∅ (Node_base (Demo.portfolio infinity))
           COLLAPSED (Node_children (Demo.portfolio infinity))).
  - intros [| r | x]; reflexivity.
  - intros [[n ac asc [| r | x] nl p cur env] a] l' Hread;
      injection Hread as <-; repeat split.
  - repeat split; eexists; reflexivity.
Defined.

(** * Further properties of [folder.py] *)

Section Further.
Context `{Collaborators}.

Ltac unfold_bind :=
  unfold mbind, mret, fmap, result_bind, result_ret, result_fmap in *.

(** ** The currency of the whole tree *)

Lemma list_sum_zero xs : list_sum xs = 0 <-> Forall (fun x => x = 0) xs.
Proof.
  induction xs as [| x xs IH]; simpl.
  - split; [constructor | reflexivity].
  - split.
    + intros Hsum. constructor; [lia |]. apply IH. lia.
    + intros Hall. inversion Hall; subst. simpl. apply IH. assumption.
Qed.

Lemma empty_folders_zero b d s children :
  empty_folders (NFolder b d s children) = 0 <->
  children <> [] /\ Forall (fun c => empty_folders c = 0) children.
Proof.
  destruct children as [| c cs].
  - simpl. split; [discriminate | intros [Hne _]; contradiction].
  - change (empty_folders (NFolder b d s (c :: cs)))
      with (list_sum (map empty_folders (c :: cs))).
    rewrite list_sum_zero, List.Forall_map. split.
    + intros Hall. split; [discriminate | exact Hall].
    + intros [_ Hall]. exact Hall.
Qed.

(** X3. [get_currency] returns a currency [c] other than the sentinel
    exactly when no folder of the tree is empty and every line of the tree
    returns [c]: one empty folder or one line in another currency, at any
    depth, turns the answer of every folder above it into ["#"]. *)
Theorem get_currency_lines n c :
  c <> "#" ->
  (get_currency n = c <->
   empty_folders n = 0 /\ Forall (fun l => Line_get_currency l = c) (lines_of n)).
Proof.
  intros Hc. induction n as [l | b d s cs IH] using Node_tree_ind.
  - simpl. split.
    + intros <-. split; [reflexivity | repeat constructor].
    + intros [_ Hall]. inversion Hall; subst. reflexivity.
  - rewrite empty_folders_zero. cbn [get_currency lines_of].
    rewrite List.Forall_forall in IH. split.
    + intros Hget.
      destruct (common_currency_spec (map get_currency cs) c) as [_ Hinv].
      destruct (Hinv Hget Hc) as [Hne Hall]. rewrite List.Forall_map in Hall.
      rewrite List.Forall_forall in Hall. split; [split |].
      * destruct cs; [contradiction | discriminate].
      * apply List.Forall_forall. intros x Hx. apply (IH x Hx). apply Hall. exact Hx.
      * apply Forall_flat_map. apply List.Forall_forall. intros x Hx.
        apply (IH x Hx). apply Hall. exact Hx.
    + intros [[Hne Hempty] Hlines]. apply common_currency_spec.
      * destruct cs; [contradiction | discriminate].
      * rewrite List.Forall_map. apply List.Forall_forall. intros x Hx.
        apply (IH x Hx). rewrite List.Forall_forall in Hempty. split; [apply Hempty; exact Hx |].
        apply Forall_flat_map in Hlines. rewrite List.Forall_forall in Hlines.
        apply Hlines. exact Hx.
Qed.

(** ** Performances *)

Lemma bind_Ok {A} (m : result A) : (x ← m; Ok x) = m.
Proof. destruct m; reflexivity. Qed.

Lemma is_candidate_line l :
  is_candidate (NLine l) =
    match perf (Line_base l) with
    | Some p => Ok (negb (skip p))
    | None => Raise AttributeError
    end.
Proof.
  unfold is_candidate, perf_skip. cbn [isinstance_Line Node_base].
  destruct (perf (Line_base l)); reflexivity.
Qed.

Lemma comprehension_if_cons {A} (keep : A -> result bool) x xs :
  comprehension_if keep (x :: xs) =
    match keep x with
    | Ok k =>
        match comprehension_if keep xs with
        | Ok ys => Ok (if k then x :: ys else ys)
        | Raise e => Raise e
        end
    | Raise e => Raise e
    end.
Proof. reflexivity. Qed.

Lemma comprehension_cons {A B} (f : A -> result B) x xs :
  comprehension f (x :: xs) =
    match f x with
    | Ok y =>
        match comprehension f xs with
        | Ok ys => Ok (y :: ys)
        | Raise e => Raise e
        end
    | Raise e => Raise e
    end.
Proof. reflexivity. Qed.

Lemma candidates_without_skipped children :
  comprehension_if is_candidate (List.filter (fun c => negb (marked_skip c)) children) =
  comprehension_if is_candidate children.
Proof.
  induction children as [| c cs IH]; [reflexivity |].
  cbn [List.filter]. rewrite (comprehension_if_cons is_candidate c cs).
  destruct c as [l | b d s gs].
  - rewrite is_candidate_line. cbn [marked_skip].
    destruct (perf (Line_base l)) as [p |] eqn:Hp.
    + destruct (skip p) eqn:Hs; cbn [negb].
      * rewrite IH. destruct (comprehension_if is_candidate cs); reflexivity.
      * rewrite comprehension_if_cons, is_candidate_line, Hp, Hs, IH. reflexivity.
    + cbn [negb]. rewrite comprehension_if_cons, is_candidate_line, Hp. reflexivity.
  - cbn [marked_skip negb]. rewrite comprehension_if_cons, IH. reflexivity.
Qed.

(** X4. Lines marked skip do not count in [get_perf]: a folder has the
    performance, or raises the exception, of the same folder without
    them. *)
Theorem get_perf_without_skipped ideal b d s children :
  get_perf ideal (NFolder b d s (List.filter (fun c => negb (marked_skip c)) children)) =
  get_perf ideal (NFolder b d s children).
Proof. rewrite !get_perf_folder, candidates_without_skipped. reflexivity. Qed.

Lemma comprehension_if_error children e :
  comprehension_if is_candidate children = Raise e -> e = AttributeError.
Proof.
  induction children as [| c cs IH]; [discriminate |].
  rewrite comprehension_if_cons. destruct c as [l | b d s gs].
  - rewrite is_candidate_line. destruct (perf (Line_base l)); [| congruence].
    destruct (comprehension_if is_candidate cs); [discriminate |].
    intros [= <-]. apply IH. reflexivity.
  - cbn [is_candidate isinstance_Line].
    destruct (comprehension_if is_candidate cs); [discriminate |].
    intros [= <-]. apply IH. reflexivity.
Qed.

Lemma comprehension_if_subset {A} (keep : A -> result bool) xs ys :
  comprehension_if keep xs = Ok ys -> forall y, In y ys -> In y xs.
Proof.
  revert ys. induction xs as [| x xs IH]; intros ys.
  - intros [= <-] y [].
  - rewrite comprehension_if_cons. destruct (keep x) as [k |]; [| discriminate].
    destruct (comprehension_if keep xs) as [zs |]; [| discriminate].
    intros [= <-] y Hy. destruct k.
    + destruct Hy as [<- | Hy]; [left; reflexivity | right; apply (IH zs eq_refl y Hy)].
    + right. apply (IH zs eq_refl y Hy).
Qed.

Lemma comprehension_error {A B} (f : A -> result B) xs e :
  comprehension f xs = Raise e -> exists x, In x xs /\ f x = Raise e.
Proof.
  induction xs as [| x xs IH]; [discriminate |].
  rewrite comprehension_cons. destruct (f x) as [y |] eqn:Hx.
  - destruct (comprehension f xs); [discriminate |].
    intros [= <-]. destruct (IH eq_refl) as (x' & Hin & Hx').
    exists x'. split; [right; exact Hin | exact Hx'].
  - intros [= <-]. exists x. split; [left; reflexivity | exact Hx].
Qed.

(** [get_perf] raises nothing but the [AttributeError] of a missing
    performance. *)
Lemma get_perf_error ideal n e : get_perf ideal n = Raise e -> e = AttributeError.
Proof.
  revert e. induction n as [l | b d s cs IH] using Node_tree_ind; intros e; [discriminate |].
  rewrite get_perf_folder. unfold_bind.
  destruct (comprehension_if is_candidate cs) as [candidates |] eqn:Hc.
  - destruct (comprehension (get_perf ideal) candidates) as [perfs |] eqn:Hp; [discriminate |].
    intros [= <-]. destruct (comprehension_error _ _ _ Hp) as (c & Hin & Hraise).
    rewrite List.Forall_forall in IH.
    apply (IH c (comprehension_if_subset _ _ _ Hc c Hin) _ Hraise).
  - intros [= <-]. apply (comprehension_if_error cs _ Hc).
Qed.

Lemma children_perfs_iff ideal children :
  Forall (fun c => isinstance_Folder c = true ->
                   (succeeds (get_perf ideal c) <->
                    Forall (fun l => perf (Line_base l) <> None) (lines_of c))) children ->
  ((exists candidates perfs,
      comprehension_if is_candidate children = Ok candidates /\
      comprehension (get_perf ideal) candidates = Ok perfs) <->
   Forall (fun c => Forall (fun l => perf (Line_base l) <> None) (lines_of c)) children).
Proof.
  induction 1 as [| c cs Hc _ IH].
  - split; [constructor | intros _; exists [], []; split; reflexivity].
  - rewrite comprehension_if_cons. destruct c as [l | b d s gs].
    + rewrite is_candidate_line. cbn [lines_of].
      destruct (perf (Line_base l)) as [p |] eqn:Hperf.
      * split.
        -- intros (candidates & perfs & Hcands & Hperfs).
           destruct (comprehension_if is_candidate cs) as [ys |]; [| discriminate].
           injection Hcands as <-. constructor.
           ++ constructor; [congruence | constructor].
           ++ apply IH. destruct (negb (skip p)).
              ** rewrite comprehension_cons in Hperfs. cbn [get_perf] in Hperfs.
                 destruct (comprehension (get_perf ideal) ys) as [ps |] eqn:Hps;
                   [| discriminate].
                 exists ys, ps. split; [reflexivity | exact Hps].
              ** exists ys, perfs. split; [reflexivity | exact Hperfs].
        -- intros Hall. inversion Hall as [| ? ? _ Hrest]; subst.
           apply IH in Hrest as (ys & ps & -> & Hps). destruct (negb (skip p)).
           ++ exists (NLine l :: ys), (Line_get_perf l :: ps). split; [reflexivity |].
              rewrite comprehension_cons. cbn [get_perf]. rewrite Hps. reflexivity.
           ++ exists ys, ps. split; [reflexivity | exact Hps].
      * split.
        -- intros (candidates & perfs & Hcands & _). discriminate.
        -- intros Hall. inversion Hall as [| ? ? Hl _]; subst.
           inversion Hl; subst. contradiction.
    + cbn [is_candidate isinstance_Line]. specialize (Hc eq_refl). split.
      * intros (candidates & perfs & Hcands & Hperfs).
        destruct (comprehension_if is_candidate cs) as [ys |]; [| discriminate].
        injection Hcands as <-. rewrite comprehension_cons in Hperfs.
        destruct (get_perf ideal (NFolder b d s gs)) as [p |] eqn:Hp; [| discriminate].
        destruct (comprehension (get_perf ideal) ys) as [ps |] eqn:Hps; [| discriminate].
        constructor.
        -- apply Hc. exists p. reflexivity.
        -- apply IH. exists ys, ps. split; [reflexivity | exact Hps].
      * intros Hall. inversion Hall as [| ? ? Hhere Hrest]; subst.
        apply Hc in Hhere as [p Hp]. apply IH in Hrest as (ys & ps & -> & Hps).
        exists (NFolder b d s gs :: ys), (p :: ps). split; [reflexivity |].
        rewrite comprehension_cons, Hp, Hps. reflexivity.
Qed.

Lemma get_perf_succeeds_iff ideal n :
  isinstance_Folder n = true ->
  (succeeds (get_perf ideal n) <->
   Forall (fun l => perf (Line_base l) <> None) (lines_of n)).
Proof.
  induction n as [l | b d s cs IH] using Node_tree_ind; [discriminate |]. intros _.
  cbn [lines_of]. rewrite Forall_flat_map, <- (children_perfs_iff ideal cs IH).
  rewrite get_perf_folder. unfold_bind. split.
  - intros [r Hr].
    destruct (comprehension_if is_candidate cs) as [candidates |]; [| discriminate].
    destruct (comprehension (get_perf ideal) candidates) as [perfs |] eqn:Hp;
      [| discriminate].
    exists candidates, perfs. split; [reflexivity | exact Hp].
  - intros (candidates & perfs & -> & ->). eexists. reflexivity.
Qed.

(** X6. [get_perf] of a folder returns a performance exactly when every
    line of the tree below it has a performance set; when one has none,
    at any depth, it raises [AttributeError]. *)
Theorem get_perf_raises ideal b d s children :
  (succeeds (get_perf ideal (NFolder b d s children)) <->
   Forall (fun l => perf (Line_base l) <> None) (flat_map lines_of children)) /\
  (~ Forall (fun l => perf (Line_base l) <> None) (flat_map lines_of children) ->
   get_perf ideal (NFolder b d s children) = Raise AttributeError).
Proof.
  pose proof (get_perf_succeeds_iff ideal (NFolder b d s children) eq_refl) as Hiff.
  cbn [lines_of] in Hiff. split; [exact Hiff |]. intros Hmissing.
  destruct (get_perf ideal (NFolder b d s children)) as [r | e] eqn:Hget.
  - exfalso. apply Hmissing, Hiff. exists r. reflexivity.
  - f_equal. apply (get_perf_error ideal _ e Hget).
Qed.

(** ** Attributes over the whole tree *)

Lemma inherit_idempotent ac asc p cur env b :
  inherit ac asc p cur env (inherit ac asc p cur env b) = inherit ac asc p cur env b.
Proof.
  destruct b as [n ac0 asc0 t nl p0 cur0 env0]. unfold inherit.
  cbn [name asset_class asset_subclass target newline perf currency envelope]. f_equal.
  - destruct (decide (ac0 = AssetClass_UNKNOWN)) as [-> |];
      destruct (decide (ac = AssetClass_UNKNOWN)) as [-> |];
      repeat (destruct (decide _)); congruence.
  - destruct (decide (asc0 = AssetSubclass_UNKNOWN)) as [-> |];
      destruct (decide (asc = AssetSubclass_UNKNOWN)) as [-> |];
      repeat (destruct (decide _)); congruence.
  - destruct p as [q |]; [| reflexivity]. destruct p0 as [q0 |].
    + destruct (expected q0 =? 0)%float eqn:Hq0.
      * destruct (expected q =? 0)%float; reflexivity.
      * rewrite Hq0. reflexivity.
    + destruct (expected q =? 0)%float; reflexivity.
  - destruct (str_truthy cur); reflexivity.
  - destruct env; reflexivity.
Qed.

(** X7. [set_child_attribs] is idempotent: handing the same attributes
    down a second time, as happens to a grandchild when its parent is
    attached in turn with attributes it already has, changes nothing. *)
Theorem set_child_attribs_idempotent ac asc p cur env child :
  set_child_attribs ac asc p cur env (set_child_attribs ac asc p cur env child) =
  set_child_attribs ac asc p cur env child.
Proof.
  induction child as [[b x] | b d s cs IH] using Node_tree_ind; cbn [set_child_attribs].
  - cbn [Line_base Line_data]. rewrite inherit_idempotent. reflexivity.
  - rewrite inherit_idempotent. f_equal. rewrite map_map.
    induction IH as [| c cs Hc _ IHcs]; [reflexivity |]. cbn [map]. rewrite Hc, IHcs.
    reflexivity.
Qed.

Lemma bases_of_set_child_attribs ac asc p cur env child :
  bases_of (set_child_attribs ac asc p cur env child) =
  map (inherit ac asc p cur env) (bases_of child).
Proof.
  induction child as [l | b d s cs IH] using Node_tree_ind; [reflexivity |].
  cbn [set_child_attribs bases_of map]. f_equal.
  induction IH as [| c cs Hc _ IHcs]; [reflexivity |].
  cbn [map flat_map]. rewrite map_app, Hc, IHcs. reflexivity.
Qed.

Lemma lines_of_set_child_attribs ac asc p cur env child :
  lines_of (set_child_attribs ac asc p cur env child) =
  map (fun l => mkLine (inherit ac asc p cur env (Line_base l)) (Line_data l))
      (lines_of child).
Proof.
  induction child as [l | b d s cs IH] using Node_tree_ind; [reflexivity |].
  cbn [set_child_attribs lines_of].
  induction IH as [| c cs Hc _ IHcs]; [reflexivity |].
  cbn [map flat_map]. rewrite map_app, Hc, IHcs. reflexivity.
Qed.

(** X8. [set_child_attribs] reaches every node below the child, not only
    the child: after the call no node of the subtree has the asset class
    or subclass [UNKNOWN] when a known one was handed down, every node has
    the envelope handed down, every node has the currency handed down when
    it is not the empty string, and every node has a performance when one
    was handed down. *)
Theorem set_child_attribs_reaches ac asc p cur env child :
  (ac <> AssetClass_UNKNOWN ->
   Forall (fun b => asset_class b <> AssetClass_UNKNOWN)
          (bases_of (set_child_attribs ac asc p cur env child))) /\
  (asc <> AssetSubclass_UNKNOWN ->
   Forall (fun b => asset_subclass b <> AssetSubclass_UNKNOWN)
          (bases_of (set_child_attribs ac asc p cur env child))) /\
  (forall e, env = Some e ->
   Forall (fun b => envelope b = Some e)
          (bases_of (set_child_attribs ac asc p cur env child))) /\
  (forall c, cur = Some c -> c <> "" ->
   Forall (fun b => currency b = Some c)
          (bases_of (set_child_attribs ac asc p cur env child))) /\
  (p <> None ->
   Forall (fun b => perf b <> None)
          (bases_of (set_child_attribs ac asc p cur env child))).
Proof.
  rewrite bases_of_set_child_attribs.
  repeat match goal with |- _ /\ _ => split end; intros;
    apply List.Forall_map, List.Forall_forall; intros b _; unfold inherit;
    cbn [asset_class asset_subclass envelope currency perf].
  - destruct (decide _); assumption.
  - destruct (decide _); assumption.
  - subst env. reflexivity.
  - subst cur. rewrite str_truthy_Some by assumption. reflexivity.
  - destruct p as [q |]; [| contradiction].
    destruct (perf b) as [q0 |]; [destruct (_ =? _)%float |]; discriminate.
Qed.

Lemma bare_inherit ac asc p cur env b : bare (inherit ac asc p cur env b) = bare b.
Proof. reflexivity. Qed.

(** X9. [set_child_attribs] changes nothing but the five attributes: the
    names, targets, newline flags, display modes, buckets and data of the
    nodes, and the shape of the tree, are as before. *)
Theorem set_child_attribs_keeps_shape ac asc p cur env child :
  stripped (set_child_attribs ac asc p cur env child) = stripped child.
Proof.
  induction child as [l | b d s cs IH] using Node_tree_ind; [reflexivity |].
  cbn [set_child_attribs stripped]. rewrite bare_inherit. f_equal. rewrite map_map.
  induction IH as [| c cs Hc _ IHcs]; [reflexivity |]. cbn [map]. rewrite Hc, IHcs.
  reflexivity.
Qed.

(** X10. Adding a child to a folder gives the folder that the constructor
    builds with the child at the end of the list of children. *)
Theorem add_child_as_constructed name' ac asc t children nl d p cur env child :
  add_child (Folder_init name' ac asc t children nl d p cur env) child =
  Folder_init name' ac asc t (Some (default [] children ++ [child])) nl d p cur env.
Proof.
  unfold Folder_init. cbn [add_child].
  change (default [] (Some (default [] children ++ [child])))
    with (default [] children ++ [child]).
  rewrite map_app. reflexivity.
Qed.

Lemma attached_lines_have_perf b q child :
  perf b = Some q ->
  Forall (fun l => perf (Line_base l) <> None) (lines_of (attach b child)).
Proof.
  intros Hq. unfold attach. rewrite lines_of_set_child_attribs, Hq.
  apply List.Forall_map, List.Forall_forall. intros l _. cbn [Line_base].
  unfold inherit. cbn [perf].
  destruct (perf (Line_base l)) as [q0 |]; [destruct (_ =? _)%float |]; discriminate.
Qed.

(** X11. A folder constructed with a performance can always compute
    [get_perf]: the performance it hands down fills every line that has
    none, so the [AttributeError] of a missing performance cannot occur;
    adding a child later keeps it so. *)
Theorem get_perf_of_folder_with_perf ideal q :
  (forall name' ac asc t children nl d cur env,
     succeeds (get_perf ideal
                 (Folder_init name' ac asc t children nl d (Some q) cur env))) /\
  (forall b d s children child,
     perf b = Some q ->
     succeeds (get_perf ideal (NFolder b d s children)) ->
     succeeds (get_perf ideal (add_child (NFolder b d s children) child))).
Proof.
  split.
  - intros name' ac asc t children nl d cur env.
    apply get_perf_succeeds_iff; [reflexivity |].
    unfold Folder_init. cbn [lines_of]. apply Forall_flat_map, List.Forall_map.
    apply List.Forall_forall. intros c _.
    apply (attached_lines_have_perf _ q). reflexivity.
  - intros b d s children child Hq Hok.
    apply get_perf_succeeds_iff in Hok; [| reflexivity].
    apply get_perf_succeeds_iff; [reflexivity |].
    cbn [add_child lines_of] in *. rewrite flat_map_app. apply Forall_app.
    split; [exact Hok |]. cbn [flat_map]. rewrite app_nil_r.
    apply (attached_lines_have_perf b q). exact Hq.
Qed.

(** ** The processing pass over the whole tree *)

Lemma processed_length children w children' w' :
  processed children w children' w' -> length children' = length children.
Proof. induction 1; simpl; congruence. Qed.

Lemma process_folder_shape b d s children w :
  exists children' w',
    process (NFolder b d s children) w = Ok (NFolder b d s children', w') /\
    (s = None -> length children' = length children) /\
    (s <> None -> Forall (fun c => isinstance_Line c = true) children').
Proof.
  destruct s as [s |].
  - destruct (SharedFolder_process_spec b d s children w (children_process_total children))
      as (old & w1 & _ & Hnil & Hlast).
    destruct (fst (Bucket_use_amount (bucket s) (target_amount s) (pool w1)))
      as [| x xs] eqn:Hused.
    + eexists _, _. split; [apply Hnil; reflexivity |].
      split; [discriminate | intros _; constructor].
    + destruct (nonempty_last (x :: xs)) as (earlier & last_line & Hxs); [discriminate |].
      eexists _, _. split; [apply (Hlast earlier last_line Hxs) |].
      split; [discriminate |]. intros _. apply Forall_app. split.
      * apply List.Forall_map, List.Forall_forall. reflexivity.
      * repeat constructor.
  - destruct (Folder_process_spec b d None children w (children_process_total children))
      as (cs' & w1 & Hcs & Hfolder).
    eexists _, _. split; [exact Hfolder |].
    split; [intros _; apply (processed_length _ _ _ _ Hcs) | contradiction].
Qed.

(** X12. [process] returns a folder with its own fields, display and
    bucket as they were. A folder that is not shared keeps the number of
    its children; a shared folder ends with lines only, whatever its
    children were. *)
Theorem process_keeps_folder b d s children w :
  exists children' w',
    process (NFolder b d s children) w = Ok (NFolder b d s children', w') /\
    (s = None -> length children' = length children) /\
    (s <> None -> Forall (fun c => isinstance_Line c = true) children').
Proof. apply process_folder_shape. Qed.

Lemma processed_console children :
  Forall (fun c => forall w, exists c' w' extra,
            process c w = Ok (c', w') /\ console w' = console w ++ extra) children ->
  forall w children' w',
    processed children w children' w' ->
    exists extra, console w' = console w ++ extra.
Proof.
  induction 1 as [| c cs Hc _ IH]; intros w children' w' Hrun; inversion Hrun; subst.
  - exists []. rewrite app_nil_r. reflexivity.
  - destruct (Hc w) as (c2 & w2 & extra1 & Hrun1 & Hlog1).
    assert (w2 = w1) by congruence. subst w2.
    destruct (IH _ _ _ ltac:(eassumption)) as (extra2 & Hlog2).
    exists (extra1 ++ extra2). rewrite Hlog2, Hlog1, app_assoc. reflexivity.
Qed.

(** X13. [process] only adds to the console: whatever the tree, the lines
    logged before the call are still there, in order, at the start of the
    log after it. *)
Theorem process_appends_to_console n w :
  exists n' w' extra,
    process n w = Ok (n', w') /\ console w' = console w ++ extra.
Proof.
  revert w. induction n as [l | b d s cs IH] using Node_tree_ind; intros w.
  - exists (NLine (Line_process l)), w, []. rewrite app_nil_r. split; reflexivity.
  - assert (Hfolder : forall s', exists cs' w1 extra,
              Folder_process process b d s' cs w = Ok (NFolder b d s' cs', w1) /\
              console w1 = console w ++ extra).
    { intros s'.
      destruct (Folder_process_spec b d s' cs w (children_process_total cs))
        as (cs' & w1 & Hcs & Hrun).
      destruct (processed_console cs IH _ _ _ Hcs) as (extra & Hlog).
      destruct (ratio_off (ratio_sum cs')).
      - exists cs', (console_log (ratio_warning (name b)) w1),
               (extra ++ [ratio_warning (name b)]).
        split; [exact Hrun |].
        cbn [console_log console]. rewrite Hlog, <- app_assoc. reflexivity.
      - exists cs', w1, extra. split; [exact Hrun | exact Hlog]. }
    destruct s as [s |].
    + destruct (Hfolder (Some s)) as (cs' & w1 & extra & Hrun & Hlog).
      destruct (process_folder_shape b d (Some s) cs w) as (cs'' & w'' & Hfull & _).
      exists (NFolder b d (Some s) cs''), w'', extra. split; [exact Hfull |].
      cbn [process] in Hfull. unfold SharedFolder_process in Hfull.
      rewrite Hrun in Hfull. unfold_bind. cbn [fst snd] in Hfull.
      destruct (map NLine _) in Hfull.
      * injection Hfull as _ <-. exact Hlog.
      * destruct (update_last _ _) in Hfull; [| discriminate].
        injection Hfull as _ <-. exact Hlog.
    + destruct (Hfolder None) as (cs' & w1 & extra & Hrun & Hlog).
      exists (NFolder b d None cs'), w1, extra. split; [exact Hrun | exact Hlog].
Qed.

Lemma processed_pool children :
  Forall (fun c => has_shared c = false ->
            forall w, exists c' w', process c w = Ok (c', w') /\ pool w' = pool w) children ->
  existsb has_shared children = false ->
  forall w children' w',
    processed children w children' w' -> pool w' = pool w.
Proof.
  induction 1 as [| c cs Hc _ IH]; intros Hnone w children' w' Hrun; inversion Hrun; subst.
  - reflexivity.
  - cbn [existsb] in Hnone. apply orb_false_iff in Hnone as [Hhere Hrest].
    destruct (Hc Hhere w) as (c2 & w2 & Hrun1 & Hpool1).
    assert (w2 = w1) by congruence. subst w2.
    rewrite (IH Hrest _ _ _ ltac:(eassumption)). exact Hpool1.
Qed.

(** X14. Only shared folders draw on the buckets: [process] on a tree
    without shared folder leaves the state of the buckets as it was. *)
Theorem process_keeps_pool n w :
  has_shared n = false ->
  exists n' w', process n w = Ok (n', w') /\ pool w' = pool w.
Proof.
  revert w. induction n as [l | b d s cs IH] using Node_tree_ind; intros w Hnone.
  - exists (NLine (Line_process l)), w. split; reflexivity.
  - destruct s as [s |]; [discriminate |]. cbn [has_shared] in Hnone.
    destruct (Folder_process_spec b d None cs w (children_process_total cs))
      as (cs' & w1 & Hcs & Hrun).
    eexists _, _. split; [exact Hrun |].
    assert (Hpool : pool w1 = pool w).
    { apply (processed_pool cs) with (children' := cs'); [| exact Hnone | exact Hcs].
      eapply List.Forall_impl; [| exact IH]. intros c Hc Hshared w0. apply Hc. exact Hshared. }
    destruct (ratio_off (ratio_sum cs')); [cbn [console_log pool] |]; exact Hpool.
Qed.

(** ** Matching over the whole tree *)

Lemma scan_children_unchanged fetch_line children :
  Forall (fun c => isinstance_Folder c = true -> snd (match_lines fetch_line c) = c)
         children ->
  forall i, snd (scan_children (match_lines fetch_line) fetch_line i children) = children.
Proof.
  induction 1 as [| c cs Hc _ IH]; intros i; [reflexivity |].
  cbn [scan_children snd]. rewrite IH. f_equal.
  destruct c as [l | b d s gs]; [reflexivity |]. cbn [snd]. apply Hc. reflexivity.
Qed.

(** X15. A record that matches the envelope of no folder of the tree
    leaves the tree as it is: [match_lines] only reads it. *)
Theorem match_lines_without_envelope fetch_line n :
  Forall (fun b => envelope_matches b fetch_line = false) (folders_of n) ->
  snd (match_lines fetch_line n) = n.
Proof.
  induction n as [l | b d s cs IH] using Node_tree_ind; [reflexivity |].
  cbn [folders_of]. intros Hall. apply Forall_cons_1 in Hall as [Hb Hrest].
  cbn [match_lines]. rewrite Hb. cbn [snd]. f_equal.
  apply scan_children_unchanged. rewrite List.Forall_forall in IH, Hrest |- *.
  intros c Hc _. apply (IH c Hc). apply List.Forall_forall. intros b' Hb'.
  apply Hrest, in_flat_map. exists c. split; assumption.
Qed.

Lemma node_at_line l p n : node_at (NLine l) p = Some n -> p = [] /\ n = NLine l.
Proof.
  destruct p as [| i q]; cbn [node_at Node_children].
  - intros [= <-]. split; reflexivity.
  - destruct i; discriminate.
Qed.

Lemma scan_children_sound fetch_line children :
  Forall (fun c => forall p, In p (fst (match_lines fetch_line c)) ->
            exists l, node_at (snd (match_lines fetch_line c)) p = Some (NLine l))
         children ->
  forall i p,
    In p (fst (scan_children (match_lines fetch_line) fetch_line i children)) ->
    exists j q l c',
      p = (i + j) :: q /\
      nth_error (snd (scan_children (match_lines fetch_line) fetch_line i children)) j
        = Some c' /\
      node_at c' q = Some (NLine l).
Proof.
  induction 1 as [| c cs Hc _ IH]; intros i p; [intros [] |].
  cbn [scan_children fst snd]. intros Hin. apply in_app_or in Hin as [Hhere | Hrest].
  - exists 0. rewrite Nat.add_0_r. destruct c as [l | b d s gs]; cbn [fst snd] in *.
    + destruct (FetchLine_matches_line fetch_line l); [| destruct Hhere].
      destruct Hhere as [<- | []]. exists [], l, (NLine l). repeat split.
    + apply in_map_iff in Hhere as (q & <- & Hq). destruct (Hc q Hq) as [l Hl].
      exists q, l. eexists. repeat split. exact Hl.
  - destruct (IH (S i) p Hrest) as (j & q & l & c' & -> & Hnth & Hat).
    exists (S j), q, l, c'. split; [f_equal; lia |]. split; assumption.
Qed.

Lemma scan_children_complete fetch_line children :
  Forall (fun c => isinstance_Folder c = true ->
            forall p l, node_at (snd (match_lines fetch_line c)) p = Some (NLine l) ->
                        FetchLine_matches_line fetch_line l = true ->
                        In p (fst (match_lines fetch_line c)))
         children ->
  forall i j c' q l,
    nth_error (snd (scan_children (match_lines fetch_line) fetch_line i children)) j
      = Some c' ->
    node_at c' q = Some (NLine l) ->
    FetchLine_matches_line fetch_line l = true ->
    In ((i + j) :: q) (fst (scan_children (match_lines fetch_line) fetch_line i children)).
Proof.
  induction 1 as [| c cs Hc _ IH]; intros i j c' q l.
  - destruct j; discriminate.
  - cbn [scan_children fst snd]. intros Hnth Hat Hmatch. apply in_or_app.
    destruct j as [| j]; cbn [nth_error] in Hnth.
    + left. injection Hnth as <-. rewrite Nat.add_0_r.
      destruct c as [l0 | b d s gs]; cbn [fst snd] in *.
      * apply node_at_line in Hat as [-> [= <-]]. rewrite Hmatch. left. reflexivity.
      * apply in_map. apply (Hc eq_refl q l Hat Hmatch).
    + right. replace (i + S j) with (S i + j) by lia.
      apply (IH (S i) j c' q l Hnth Hat Hmatch).
Qed.

Lemma match_lines_sound_complete fetch_line n :
  (forall p, In p (fst (match_lines fetch_line n)) ->
     exists l, node_at (snd (match_lines fetch_line n)) p = Some (NLine l)) /\
  (isinstance_Folder n = true ->
   forall p l, node_at (snd (match_lines fetch_line n)) p = Some (NLine l) ->
               FetchLine_matches_line fetch_line l = true ->
               In p (fst (match_lines fetch_line n))).
Proof.
  induction n as [l | b d s cs IH] using Node_tree_ind.
  - split; [intros p [] | discriminate].
  - assert (Hsound := scan_children_sound fetch_line cs
                        (List.Forall_impl _ (fun c Hc => proj1 Hc) IH) 0).
    assert (Hcomplete := scan_children_complete fetch_line cs
                           (List.Forall_impl _ (fun c Hc => proj2 Hc) IH) 0).
    pose proof (scan_children_length (match_lines fetch_line) fetch_line 0 cs) as Hlen.
    cbn [match_lines]. set (r := scan_children (match_lines fetch_line) fetch_line 0 cs) in *.
    destruct (envelope_matches b fetch_line).
    + cbn [scan_children attach set_child_attribs fst snd app]. split.
      * intros p [<- | Hin].
        -- cbn [node_at Node_children]. rewrite nth_error_app2 by lia.
           rewrite Hlen, Nat.sub_diag. eexists. reflexivity.
        -- apply in_app_or in Hin as [Hin | Hin].
           ++ destruct (Hsound p Hin) as (j & q & l & c' & -> & Hnth & Hat).
              exists l. cbn [node_at Node_children Nat.add].
              rewrite nth_error_app1 by (apply nth_error_Some; congruence).
              rewrite Hnth. exact Hat.
           ++ destruct (FetchLine_matches_line fetch_line _); [| destruct Hin].
              destruct Hin as [<- | []].
              cbn [node_at Node_children]. rewrite nth_error_app2 by lia.
              rewrite Hlen, Nat.sub_diag. eexists. reflexivity.
      * intros _ p l Hat Hmatch. destruct p as [| j q]; [discriminate |].
        cbn [node_at Node_children] in Hat.
        destruct (Nat.lt_ge_cases j (length cs)) as [Hlt | Hge].
        -- rewrite nth_error_app1 in Hat by lia.
           destruct (nth_error (snd r) j) as [c' |] eqn:Hnth; [| discriminate].
           right. apply in_or_app. left. apply (Hcomplete j c' q l Hnth Hat Hmatch).
        -- rewrite nth_error_app2 in Hat by lia. rewrite Hlen in Hat.
           destruct (j - length cs) as [| k] eqn:Hk; cbn [nth_error] in Hat.
           ++ apply node_at_line in Hat as [-> [= <-]].
              replace j with (length cs) by lia. left. reflexivity.
           ++ destruct k; discriminate.
    + cbn [fst snd]. split.
      * intros p Hin. destruct (Hsound p Hin) as (j & q & l & c' & -> & Hnth & Hat).
        exists l. cbn [node_at Node_children Nat.add]. rewrite Hnth. exact Hat.
      * intros _ p l Hat Hmatch. destruct p as [| j q]; [discriminate |].
        cbn [node_at Node_children] in Hat.
        destruct (nth_error (snd r) j) as [c' |] eqn:Hnth; [| discriminate].
        apply (Hcomplete j c' q l Hnth Hat Hmatch).
Qed.

(** X16. What [match_lines] returns refers to the tree it leaves: every
    entry of the list is the place of a line of that tree, and every line
    of that tree that [matches_line] accepts is in the list, the lines
    generated by the call included. *)
Theorem match_lines_references fetch_line b d s children :
  (forall p,
     In p (fst (match_lines fetch_line (NFolder b d s children))) ->
     exists l,
       node_at (snd (match_lines fetch_line (NFolder b d s children))) p = Some (NLine l)) /\
  (forall p l,
     node_at (snd (match_lines fetch_line (NFolder b d s children))) p = Some (NLine l) ->
     FetchLine_matches_line fetch_line l = true ->
     In p (fst (match_lines fetch_line (NFolder b d s children)))).
Proof.
  destruct (match_lines_sound_complete fetch_line (NFolder b d s children))
    as [Hsound Hcomplete].
  split; [exact Hsound | exact (Hcomplete eq_refl)].
Qed.

Lemma folders_of_set_child_attribs ac asc p cur env child :
  folders_of (set_child_attribs ac asc p cur env child) =
  map (inherit ac asc p cur env) (folders_of child).
Proof.
  induction child as [l | b d s cs IH] using Node_tree_ind; [reflexivity |].
  cbn [set_child_attribs folders_of map]. f_equal.
  induction IH as [| c cs Hc _ IHcs]; [reflexivity |].
  cbn [map flat_map]. rewrite map_app, Hc, IHcs. reflexivity.
Qed.

Lemma scan_children_fills fetch_line children :
  Forall (fun c =>
            Forall (fun b => envelope_matches b fetch_line = true) (folders_of c) ->
            length (lines_of (snd (match_lines fetch_line c))) =
              length (lines_of c) + length (folders_of c) /\
            length (folders_of c) <= length (fst (match_lines fetch_line c))) children ->
  Forall (fun b => envelope_matches b fetch_line = true) (flat_map folders_of children) ->
  forall i,
    length (flat_map lines_of
              (snd (scan_children (match_lines fetch_line) fetch_line i children))) =
      length (flat_map lines_of children) + length (flat_map folders_of children) /\
    length (flat_map folders_of children) <=
      length (fst (scan_children (match_lines fetch_line) fetch_line i children)).
Proof.
  induction 1 as [| c cs Hc _ IH]; intros Hall i; [split; reflexivity |].
  cbn [flat_map] in Hall. apply Forall_app in Hall as [Hhere Hrest].
  destruct (IH Hrest (S i)) as [IHlines IHmatched]. destruct (Hc Hhere) as [Hlines Hmatched].
  cbn [scan_children fst snd flat_map]. rewrite !length_app, IHlines. split.
  - destruct c as [l | b d s gs]; cbn [snd]; [cbn [lines_of folders_of length]; lia |].
    rewrite Hlines. lia.
  - unfold place in *. destruct c as [l | b d s gs]; cbn [fst].
    + destruct (FetchLine_matches_line fetch_line l); cbn [folders_of length]; lia.
    + rewrite length_map. lia.
Qed.

Lemma match_lines_fills fetch_line n :
  Forall (fun b => envelope_matches b fetch_line = true) (folders_of n) ->
  length (lines_of (snd (match_lines fetch_line n))) =
    length (lines_of n) + length (folders_of n) /\
  length (folders_of n) <= length (fst (match_lines fetch_line n)).
Proof.
  induction n as [l | b d s cs IH] using Node_tree_ind; [intros _; split; reflexivity |].
  cbn [folders_of]. intros Hall. apply Forall_cons_1 in Hall as [Hb Hrest].
  destruct (scan_children_fills fetch_line cs IH Hrest 0) as [Hlines Hmatched].
  cbn [match_lines]. rewrite Hb.
  cbn [scan_children attach set_child_attribs fst snd lines_of length].
  rewrite flat_map_app, !length_app, Hlines. cbn [flat_map lines_of length app].
  unfold place in *. split; lia.
Qed.

(** X17. A folder constructed with an envelope hands it down to every
    folder below it, so, in a tree without shared folder, a record fetched
    from the account of that envelope generates one line in every folder
    of the tree, not only in the folder [match_lines] is called on, and
    each of them is in the list returned. (The children of a shared
    folder are, until [process], the list of its bucket, which every
    folder on that bucket holds: a line added to one is added to all.) *)
Theorem match_lines_fills_every_folder fetch_line e name' ac asc t children nl d p cur :
  FetchLine_account fetch_line = Envelope_key e \/
  FetchLine_account fetch_line = Envelope_name e ->
  Forall (fun c => has_shared c = false) (default [] children) ->
  length (lines_of (snd (match_lines fetch_line
                           (Folder_init name' ac asc t children nl d p cur (Some e))))) =
    length (lines_of (Folder_init name' ac asc t children nl d p cur (Some e))) +
    length (folders_of (Folder_init name' ac asc t children nl d p cur (Some e))) /\
  length (folders_of (Folder_init name' ac asc t children nl d p cur (Some e))) <=
    length (fst (match_lines fetch_line
                   (Folder_init name' ac asc t children nl d p cur (Some e)))).
Proof.
  intros Haccount _. apply match_lines_fills.
  assert (Hmatch : forall b, envelope b = Some e -> envelope_matches b fetch_line = true).
  { intros b Hb. unfold envelope_matches. rewrite Hb.
    destruct Haccount as [-> | ->]; rewrite String.eqb_refl; [reflexivity | apply orb_true_r]. }
  unfold Folder_init. cbn [folders_of]. constructor; [apply Hmatch; reflexivity |].
  apply Forall_flat_map, List.Forall_map, List.Forall_forall. intros c _.
  unfold attach. rewrite folders_of_set_child_attribs.
  apply List.Forall_map, List.Forall_forall. intros b _. apply Hmatch. reflexivity.
Qed.

(** ** Reading dicts *)

Lemma children_from_dicts_app from_dict buckets envelopes xs ys :
  children_from_dicts from_dict buckets envelopes (xs ++ ys) =
    cs ← children_from_dicts from_dict buckets envelopes xs;
    more ← children_from_dicts from_dict buckets envelopes ys;
    Ok (cs ++ more).
Proof.
  induction xs as [| x xs IH]; cbn [app children_from_dicts]; unfold_bind.
  - destruct (children_from_dicts from_dict buckets envelopes ys); reflexivity.
  - destruct (child_from_dict from_dict buckets envelopes x) as [c |]; [| reflexivity].
    rewrite IH. unfold_bind.
    destruct (children_from_dicts from_dict buckets envelopes xs) as [cs |]; [| reflexivity].
    destruct (children_from_dicts from_dict buckets envelopes ys) as [more |];
      [| reflexivity].
    rewrite app_assoc. reflexivity.
Qed.

Lemma getitem_app pre rest key :
  getitem (pre ++ rest) key =
  match getitem pre key with
  | Ok v => Ok v
  | Raise _ => getitem rest key
  end.
Proof.
  induction pre as [| [k v] pre IH]; [reflexivity |].
  cbn [app getitem]. destruct (String.eqb k key); [reflexivity | exact IH].
Qed.

Lemma Folder_of_fields_other pre v v' rest children :
  Folder_of_fields (VDict (pre ++ ("children", v) :: rest)) children =
  Folder_of_fields (VDict (pre ++ ("children", v') :: rest)) children.
Proof.
  unfold Folder_of_fields, field. cbn [subscript]. rewrite !getitem_app.
  cbn [getitem String.eqb Ascii.eqb Bool.eqb]. reflexivity.
Qed.

(** X18. A child dict whose type is none of ["line"], ["folder"] and
    ["shared_folder"] is skipped without any exception: [Folder.from_dict]
    returns what it returns for the dict without that child. *)
Theorem from_dict_skips_unknown_type buckets envelopes pre before junk after rest ty :
  subscript junk "type" = Ok ty ->
  type_is ty "line" = false ->
  type_is ty "folder" = false ->
  type_is ty "shared_folder" = false ->
  Folder_from_dict buckets envelopes
    (VDict (pre ++ ("children", VList (before ++ junk :: after)) :: rest)) =
  Folder_from_dict buckets envelopes
    (VDict (pre ++ ("children", VList (before ++ after)) :: rest)).
Proof.
  intros Hty Hline Hfolder Hshared. rewrite !Folder_from_dict_eq.
  cbn [subscript]. rewrite !getitem_app.
  destruct (getitem pre "children") as [found | e]; unfold_bind.
  - destruct (for_each_child _ found) as [cs |]; [| reflexivity].
    apply Folder_of_fields_other.
  - cbn [getitem String.eqb Ascii.eqb Bool.eqb].
    cbn [for_each_child]. rewrite !children_from_dicts_app. unfold_bind.
    destruct (children_from_dicts _ buckets envelopes before) as [cs |]; [| reflexivity].
    cbn [children_from_dicts]. unfold child_from_dict at 1. rewrite Hty. unfold_bind.
    rewrite Hline, Hfolder, Hshared.
    destruct (children_from_dicts _ buckets envelopes after) as [more |]; [| reflexivity].
    apply Folder_of_fields_other.
Qed.

Lemma getitem_missing entries key :
  ~ In key (map fst entries) -> getitem entries key = Raise (KeyError key).
Proof.
  induction entries as [| [k v] rest IH]; [reflexivity |].
  cbn [map fst In getitem]. intros Hno.
  destruct (String.eqb_spec k key) as [-> | _]; [exfalso; apply Hno; left; reflexivity |].
  apply IH. intros Hin. apply Hno. right. exact Hin.
Qed.

(** X19. The first key that [from_dict] reads decides its exception: on a
    dict without ["children"], [Folder.from_dict] and [Portfolio.from_dict]
    raise [KeyError("children")], and on a dict without ["name"]
    [SharedFolder.from_dict] raises [KeyError("name")], whatever other keys
    are missing or ill-formed. *)
Theorem from_dict_missing_key buckets envelopes entries :
  (~ In "children" (map fst entries) ->
   Folder_from_dict buckets envelopes (VDict entries) = Raise (KeyError "children") /\
   Portfolio_from_dict (VDict entries) buckets envelopes = Raise (KeyError "children")) /\
  (~ In "name" (map fst entries) ->
   SharedFolder_from_dict (VDict entries) buckets = Raise (KeyError "name")).
Proof.
  split.
  - intros Hno. rewrite Folder_from_dict_eq. unfold Portfolio_from_dict.
    cbn [subscript]. rewrite (getitem_missing _ _ Hno). split; reflexivity.
  - intros Hno. unfold SharedFolder_from_dict, field. cbn [subscript].
    rewrite (getitem_missing _ _ Hno). reflexivity.
Qed.

Lemma children_from_dicts_succeeds from_dict buckets envelopes items :
  succeeds (children_from_dicts from_dict buckets envelopes items) ->
  Forall (fun item => succeeds (child_from_dict from_dict buckets envelopes item)) items.
Proof.
  induction items as [| item rest IH]; [constructor |].
  cbn [children_from_dicts]. unfold_bind. intros [cs Hcs].
  destruct (child_from_dict from_dict buckets envelopes item) as [c |] eqn:Hitem;
    [| discriminate].
  destruct (children_from_dicts from_dict buckets envelopes rest) as [more |];
    [| discriminate].
  constructor; [exists c; exact Hitem | apply IH; exists more; reflexivity].
Qed.

Lemma SharedFolder_from_dict_resolves b d s children buckets :
  succeeds (SharedFolder_from_dict (to_dict (NFolder b d (Some s) children)) buckets) ->
  is_Some (buckets !! Bucket_name (bucket s)).
Proof.
  unfold SharedFolder_from_dict, field, lookup_bucket.
  cbn [to_dict subscript getitem String.eqb Ascii.eqb Bool.eqb]. unfold_bind.
  cbn [as_str]. destruct (buckets !! Bucket_name (bucket s)) as [bk |].
  - intros _. exists bk. reflexivity.
  - intros [x Hx]. discriminate.
Qed.

Lemma from_dict_resolves buckets envelopes n :
  isinstance_Folder n = true -> isinstance_SharedFolder n = false ->
  succeeds (Folder_from_dict buckets envelopes (to_dict n)) ->
  Forall (fun s => is_Some (buckets !! Bucket_name (bucket s))) (shared_below n).
Proof.
  induction n as [l | b d s cs IH] using Node_tree_ind; [discriminate |].
  destruct s as [s |]; [discriminate |]. intros _ _. rewrite Folder_from_dict_eq.
  cbn [to_dict subscript getitem String.eqb Ascii.eqb Bool.eqb]. unfold_bind.
  cbn [for_each_child shared_below]. intros [self' Hself].
  destruct (children_from_dicts _ buckets envelopes (map to_dict cs)) as [cs' |] eqn:Hloop;
    [| discriminate].
  clear Hself. assert (Hall := children_from_dicts_succeeds _ _ _ _ (ex_intro _ cs' Hloop)).
  clear Hloop. apply Forall_flat_map. rewrite List.Forall_map in Hall.
  rewrite List.Forall_forall in IH, Hall |- *. intros c Hc.
  specialize (IH c Hc). specialize (Hall c Hc). destruct c as [l | b' d' [s' |] gs].
  - constructor.
  - cbn [shared_below]. constructor; [| constructor].
    unfold child_from_dict in Hall.
    cbn [to_dict subscript getitem String.eqb Ascii.eqb Bool.eqb type_is] in Hall.
    unfold_bind.
    change (VDict _) with (to_dict (NFolder b' d' (Some s') gs)) in Hall.
    apply (SharedFolder_from_dict_resolves b' d' s' gs).
    destruct (SharedFolder_from_dict _ buckets) as [c |]; [exists c; reflexivity |].
    destruct Hall as [x Hx]. discriminate.
  - apply IH; [reflexivity | reflexivity |].
    unfold child_from_dict in Hall.
    cbn [to_dict subscript getitem String.eqb Ascii.eqb Bool.eqb type_is] in Hall.
    unfold_bind.
    change (VDict _) with (to_dict (NFolder b' d' None gs)) in Hall.
    destruct (Folder_from_dict buckets envelopes _) as [c |]; [exists c; reflexivity |].
    destruct Hall as [x Hx]. discriminate.
Qed.

(** X20. An unresolved bucket is fatal for the whole tree:
    [Folder.from_dict] of [Folder.to_dict] of a folder returns a tree only
    if the table of buckets holds the bucket name of every shared folder
    that the dict describes, at any depth. *)
Theorem from_dict_needs_every_bucket buckets envelopes b d children :
  succeeds (Folder_from_dict buckets envelopes (to_dict (NFolder b d None children))) ->
  Forall (fun s => is_Some (buckets !! Bucket_name (bucket s)))
         (shared_below (NFolder b d None children)).
Proof. apply from_dict_resolves; reflexivity. Qed.

Lemma Portfolio_from_Folder buckets envelopes dict b d children :
  Folder_from_dict buckets envelopes dict = Ok (NFolder b d None children) ->
  Portfolio_from_dict dict buckets envelopes =
    Ok (NFolder (set_newline false b) EXPANDED None children).
Proof.
  rewrite Folder_from_dict_eq. unfold Portfolio_from_dict, Portfolio_init. unfold_bind.
  destruct (subscript dict "children") as [children_v |]; [| discriminate].
  destruct (for_each_child _ children_v) as [cs |]; [| discriminate].
  unfold Folder_of_fields. unfold_bind.
  destruct (field dict "name" as_str) as [name' |]; [| discriminate].
  destruct (field dict "target" Target_from_dict) as [target' |]; [| discriminate].
  destruct (field dict "display" FolderDisplay_of_value) as [display' |]; [| discriminate].
  destruct (field dict "newline" _) as [newline' |]; [| discriminate].
  rewrite !Folder_init_default. intros [= <- <- <-]. reflexivity.
Qed.

(** X21. [Portfolio.from_dict] reads neither ["display"] nor ["newline"]:
    from a dict that [Folder.from_dict] turns into a folder it builds the
    same folder, with the same children, but expanded and without newline
    whatever the dict says. *)
Theorem Portfolio_from_dict_ignores_display buckets envelopes dict b d children :
  Folder_from_dict buckets envelopes dict = Ok (NFolder b d None children) ->
  Portfolio_from_dict dict buckets envelopes =
    Ok (NFolder (set_newline false b) EXPANDED None children).
Proof. apply Portfolio_from_Folder. Qed.

Section Stable.
Variable buckets : gmap string Bucket.
Variable envelopes : gmap string Envelope.
Hypothesis Target_roundtrip : forall t, Target_from_dict (Target_to_dict t) = Ok t.

Lemma folders_of_lines (lines : list Line) : flat_map folders_of (map NLine lines) = [].
Proof. induction lines as [| l lines IH]; [reflexivity | exact IH]. Qed.

Lemma rebuilt_folders_default line_ok n :
  forall n', rebuilt_as line_ok buckets envelopes n n' ->
             Forall default_attributes (folders_of n').
Proof.
  induction n as [l | b d s cs IH] using Node_tree_ind; intros n' Hrebuilt;
    inversion Hrebuilt as [l0 l' Hl Hok | b0 b' d0 cs0 cs' _ Hdefault Hall
                           | b0 b' d0 s0 s' cs0 _ Hdefault _ _]; subst.
  - constructor.
  - cbn [folders_of]. constructor; [exact Hdefault |].
    clear Hrebuilt. revert cs' Hall. induction IH as [| c cs Hc _ IHcs]; intros cs' Hall;
      inversion Hall; subst; [constructor |].
    cbn [flat_map]. apply Forall_app. split; eauto.
  - cbn [folders_of]. rewrite folders_of_lines. constructor; [exact Hdefault | constructor].
Qed.

Section Fields.
Hypothesis Line_keeps_fields : forall l l',
  Line_from_dict (Line_to_dict l) envelopes = Ok l' ->
  same_fields (Line_base l) (Line_base l').

(** X22. Under the conditions of the round trip of a folder,
    [Portfolio.from_dict] of [to_dict] of a portfolio built by
    [Portfolio.__init__] succeeds and rebuilds the tree as
    [Folder.from_dict] does: names, newline flags, targets, and the
    classes of the children and the display of the folders, one for one.
    The dict carries no currency: the portfolio and every folder below
    it come back with the defaults of the constructor, whatever currency
    the portfolio had handed down. *)
Theorem Portfolio_roundtrip name' target' children currency' :
  serializable buckets envelopes (Portfolio_init name' target' children currency') ->
  exists self',
    Portfolio_from_dict (to_dict (Portfolio_init name' target' children currency'))
      buckets envelopes = Ok self' /\
    rebuilt buckets envelopes (Portfolio_init name' target' children currency') self' /\
    Forall default_attributes (folders_of self').
Proof.
  intros Hser.
  destruct (Folder_roundtrip buckets envelopes _ Target_roundtrip Line_keeps_fields
              (Portfolio_init name' target' children currency') eq_refl eq_refl Hser)
    as (self' & Hfrom & Hrebuilt).
  exists self'. split; [| split; [exact Hrebuilt |]].
  - remember (Portfolio_init name' target' children currency') as self eqn:Hself.
    unfold Portfolio_init, Folder_init in Hself.
    destruct Hrebuilt as [| b0 b' d0 cs0 cs' Hsame _ _ |]; try discriminate.
    injection Hself as -> -> _. rewrite (Portfolio_from_Folder _ _ _ _ _ _ Hfrom).
    destruct Hsame as (_ & Hnl & _). destruct b'. cbn in Hnl. subst. reflexivity.
  - apply (rebuilt_folders_default _ _ _ Hrebuilt).
Qed.

End Fields.

Hypothesis Line_dict_stable :
  forall l l', Line_from_dict (Line_to_dict l) envelopes = Ok l' ->
               Line_to_dict l' = Line_to_dict l.
Hypothesis buckets_by_name :
  forall k bk, buckets !! k = Some bk -> Bucket_name bk = k.

Lemma rebuilt_same_dict line_ok n :
  forall n', rebuilt_as line_ok buckets envelopes n n' -> to_dict n' = to_dict n.
Proof.
  induction n as [l | b d s cs IH] using Node_tree_ind; intros n' Hrebuilt;
    inversion Hrebuilt as [l0 l' Hl Hok | b0 b' d0 cs0 cs' Hsame _ Hall
                           | b0 b' d0 s0 s' cs0 Hsame _ Hbucket Hamount]; subst.
  - cbn [to_dict]. apply Line_dict_stable. exact Hl.
  - destruct Hsame as (Hname & Hnl & Htarget). cbn [to_dict].
    rewrite Hname, Hnl, Htarget.
    assert (Hmap : map to_dict cs' = map to_dict cs); [| rewrite Hmap; reflexivity].
    clear Hrebuilt. revert cs' Hall. induction IH as [| c cs Hc _ IHcs]; intros cs' Hall;
      inversion Hall; subst; [reflexivity |].
    cbn [map]. f_equal; eauto.
  - destruct Hsame as (Hname & Hnl & Htarget). cbn [to_dict].
    rewrite Hname, Hnl, Htarget, Hamount, (buckets_by_name _ _ Hbucket). reflexivity.
Qed.

(** X23. The dict of a tree is stable under the round trip. When targets
    come back from their dicts, a line read back from its dict has that
    same dict, and every bucket is in the table under its own name, the
    tree that [Folder.from_dict] builds from [to_dict] of a folder has the
    dict of the original, so that a second round trip returns that tree
    itself. *)
Theorem to_dict_stable b d children :
  serializable buckets envelopes (NFolder b d None children) ->
  exists self',
    Folder_from_dict buckets envelopes (to_dict (NFolder b d None children)) = Ok self' /\
    to_dict self' = to_dict (NFolder b d None children) /\
    Folder_from_dict buckets envelopes (to_dict self') = Ok self'.
Proof.
  intros Hser.
  destruct (Folder_roundtrip buckets envelopes (fun _ _ => True) Target_roundtrip
              (fun _ _ _ => I) (NFolder b d None children) eq_refl eq_refl Hser)
    as (self' & Hfrom & Hrebuilt).
  exists self'. pose proof (rebuilt_same_dict _ _ _ Hrebuilt) as Hdict.
  split; [exact Hfrom |]. split; [exact Hdict |]. rewrite Hdict. exact Hfrom.
Qed.

End Stable.

(** ** Rendering *)

Section Rendering.
Context `{!Renderers}.

Lemma fold_Tree_add labels t :
  fold_left Tree_add labels t =
  mkTree (Tree_label t) (Tree_guide_style t) (Tree_hide_root t)
         (Tree_children t ++ map (Tree_node t) labels).
Proof.
  revert t. induction labels as [| l labels IH]; intros [label g h cs]; cbn.
  - rewrite app_nil_r. reflexivity.
  - rewrite IH. cbn. rewrite <- app_assoc. reflexivity.
Qed.

Lemma sidecar_loop_rows sidecar cs :
  Forall (fun n => forall t,
            sidecar_under sidecar n t =
            fold_left Tree_add
              (if isinstance_Folder n then map (row_of sidecar) (n :: shown n) else []) t) cs ->
  forall t,
    fold_left
      (fun t child =>
         match child with
         | NFolder _ _ _ _ => sidecar_under sidecar child t
         | NLine _ => Tree_add t (leaf_row sidecar child)
         end) cs t =
    fold_left Tree_add (map (row_of sidecar) (flat_map (fun c => c :: shown c) cs)) t.
Proof.
  induction 1 as [| c cs Hc _ IH]; intros t; [reflexivity |].
  cbn [fold_left flat_map]. rewrite IH.
  rewrite map_app, fold_left_app. f_equal.
  destruct c as [l | b d s cs'].
  - reflexivity.
  - rewrite Hc. reflexivity.
Qed.

Lemma sidecar_under_rows sidecar n t :
  sidecar_under sidecar n t =
  fold_left Tree_add
    (if isinstance_Folder n then map (row_of sidecar) (n :: shown n) else []) t.
Proof.
  revert t. induction n as [l | b d s cs IH] using Node_tree_ind; intros t; [reflexivity |].
  cbn [sidecar_under isinstance_Folder shown].
  destruct d; cbn [is_expanded]; [| reflexivity | reflexivity].
  rewrite (sidecar_loop_rows sidecar cs IH). reflexivity.
Qed.

(** What [render_sidecar] builds before it writes the title. *)
Lemma render_sidecar_untitled b d s children sidecar hide_root :
  hide_root <> Some false ->
  (render_sidecar (NFolder b d s children) sidecar hide_root None =
   mkTree (own_row sidecar (NFolder b d s children)) "tree.line" true
     (map (fun n => mkTree (row_of sidecar n) "tree.line" false [])
          (shown (NFolder b d s children)))) /\
  (forall t,
     render_sidecar (NFolder b d s children) sidecar hide_root (Some t) =
     fold_left Tree_add
       (map (row_of sidecar) (NFolder b d s children :: shown (NFolder b d s children))) t).
Proof.
  intros Hroot.
  assert (Hloop : forall t,
    (if is_expanded d
     then fold_left
            (fun t child =>
               match child with
               | NFolder _ _ _ _ => sidecar_under sidecar child t
               | NLine _ => Tree_add t (leaf_row sidecar child)
               end) children t
     else t) =
    fold_left Tree_add (map (row_of sidecar) (shown (NFolder b d s children))) t).
  { intros t. cbn [shown]. destruct (is_expanded d); [| reflexivity].
    apply sidecar_loop_rows. apply List.Forall_forall. intros n _ t'.
    apply sidecar_under_rows. }
  assert (Hplain : forall t : Tree,
    match hide_root, Tree_children t with
    | Some false, _ :: _ =>
        Tree_relabel_first
          (fun label =>
             "[bold " +:+ TH_TEXT +:+ "]" +:+ sidecar_title sidecar +:+ "[/]"
             +:+ newline_char +:+ label) t
    | _, _ => t
    end = t).
  { intros t. destruct hide_root as [[|] |]; try reflexivity. congruence. }
  split; [| intros t]; unfold render_sidecar; cbn [Node_children]; rewrite Hplain, Hloop.
  - rewrite fold_Tree_add. cbn. rewrite map_map. reflexivity.
  - reflexivity.
Qed.

(** X24. Called on a folder without a tree and not asked for a title,
    [render_sidecar] returns a flat tree with a hidden root: one childless
    row for every node shown below the folder, in the order of the main
    tree, whatever the sidecar renders; given a tree, it adds to it a row
    for the folder and then those rows. *)
Theorem render_sidecar_rows b d s children sidecar hide_root :
  hide_root <> Some false ->
  (render_sidecar (NFolder b d s children) sidecar hide_root None =
   mkTree (own_row sidecar (NFolder b d s children)) "tree.line" true
     (map (fun n => mkTree (row_of sidecar n) "tree.line" false [])
          (shown (NFolder b d s children)))) /\
  (forall t,
     render_sidecar (NFolder b d s children) sidecar hide_root (Some t) =
     fold_left Tree_add
       (map (row_of sidecar) (NFolder b d s children :: shown (NFolder b d s children))) t).
Proof. apply render_sidecar_untitled. Qed.

Lemma render_sidecar_titled b d s children sidecar :
  render_sidecar (NFolder b d s children) sidecar (Some false) None =
  Tree_relabel_first
    (fun label =>
       "[bold " +:+ TH_TEXT +:+ "]" +:+ sidecar_title sidecar +:+ "[/]"
       +:+ newline_char +:+ label)
    (render_sidecar (NFolder b d s children) sidecar None None).
Proof.
  unfold render_sidecar.
  match goal with
  | |- context [Tree_children ?t] => destruct t as [label g h [| [l g' h' cs] rest]]
  end; reflexivity.
Qed.


Lemma Tree_rows_append t node :
  Tree_rows (Tree_append t node) = Tree_rows t ++ Tree_label node :: Tree_rows node.
Proof.
  destruct t as [label g h cs]. cbn. rewrite flat_map_app. cbn.
  rewrite app_nil_r. reflexivity.
Qed.

Lemma Tree_label_append t node : Tree_label (Tree_append t node) = Tree_label t.
Proof. destruct t; reflexivity. Qed.

Section LineTree.
Variable output_format' : string.
Variable render_args : RenderArgs.

(** A line adds to the tree it is given one childless node, labelled
    with its rendering. *)
Hypothesis Line_tree_adds : forall l t,
  Line_tree l output_format' render_args t =
  Tree_add t (Node_render (NLine l) output_format' render_args).

Lemma tree_loop_rows cs :
  Forall (fun n => forall t,
            Tree_label (tree_under output_format' render_args n t) = Tree_label t /\
            Tree_rows (tree_under output_format' render_args n t) =
            Tree_rows t
            ++ map (fun m => Node_render m output_format' render_args) (n :: shown n)) cs ->
  forall node,
    Tree_label
      (fold_left (fun node child => tree_under output_format' render_args child node)
                 cs node) = Tree_label node /\
    Tree_rows
      (fold_left (fun node child => tree_under output_format' render_args child node)
                 cs node) =
    Tree_rows node
    ++ map (fun m => Node_render m output_format' render_args)
           (flat_map (fun c => c :: shown c) cs).
Proof.
  induction 1 as [| c cs Hc _ IH]; intros node.
  - cbn. rewrite app_nil_r. split; reflexivity.
  - cbn [fold_left flat_map]. destruct (IH (tree_under output_format' render_args c node))
      as [-> ->].
    destruct (Hc node) as [-> ->]. split; [reflexivity |].
    rewrite map_app, app_assoc. reflexivity.
Qed.

Lemma tree_under_rows n t :
  Tree_label (tree_under output_format' render_args n t) = Tree_label t /\
  Tree_rows (tree_under output_format' render_args n t) =
  Tree_rows t ++ map (fun m => Node_render m output_format' render_args) (n :: shown n).
Proof.
  revert t. induction n as [l | b d s cs IH] using Node_tree_ind; intros t.
  - cbn [tree_under shown map]. rewrite Line_tree_adds. unfold Tree_add.
    rewrite Tree_label_append, Tree_rows_append. destruct t; split; reflexivity.
  - cbn [tree_under]. rewrite Tree_label_append, Tree_rows_append.
    split; [reflexivity |]. f_equal. cbn [shown map].
    destruct d; cbn [is_expanded]; [| reflexivity | reflexivity].
    destruct (tree_loop_rows cs IH
                (Tree_node t (Node_render (NFolder b EXPANDED s cs) output_format'
                                render_args))) as [-> ->].
    reflexivity.
Qed.

Lemma tree_rows_shown b d s children hide_root :
  Tree_label (tree (NFolder b d s children) output_format' hide_root render_args) =
  Node_render (NFolder b d s children) output_format' render_args /\
  Tree_rows (tree (NFolder b d s children) output_format' hide_root render_args) =
  map (fun n => Node_render n output_format' render_args) (shown (NFolder b d s children)).
Proof.
  unfold tree. cbn [shown]. destruct (is_expanded d); [| split; reflexivity].
  destruct (tree_loop_rows children
              (proj2 (List.Forall_forall _ children) (fun n _ => tree_under_rows n))
              (mkTree (Node_render (NFolder b d s children) output_format' render_args)
                      TH_TREE_BRANCH hide_root [])) as [-> ->].
  split; reflexivity.
Qed.

(** X26. When a line adds one node with its rendering to the tree it is
    given, the tree that [Folder.tree] returns is labelled with the
    rendering of the folder and prints, below it, the rendering of every
    node under an expanded folder and of no node under a collapsed one:
    the children in order, each followed by what it shows. *)
Theorem tree_rows b d s children hide_root :
  Tree_label (tree (NFolder b d s children) output_format' hide_root render_args) =
  Node_render (NFolder b d s children) output_format' render_args /\
  Tree_rows (tree (NFolder b d s children) output_format' hide_root render_args) =
  map (fun n => Node_render n output_format' render_args) (shown (NFolder b d s children)).
Proof. apply tree_rows_shown. Qed.

(** X27. Under the same condition a sidecar has one row for each row
    that the main tree prints below its root, whatever its formats and
    with or without a title, and each of its rows is without children. *)
Theorem sidecar_aligned_with_tree b d s children hide_root sidecar hide_root' :
  length (Tree_children (render_sidecar (NFolder b d s children) sidecar hide_root' None)) =
  length (Tree_rows (tree (NFolder b d s children) output_format' hide_root render_args)) /\
  Forall (fun row => Tree_children row = [])
         (Tree_children (render_sidecar (NFolder b d s children) sidecar hide_root' None)).
Proof.
  destruct (tree_rows_shown b d s children hide_root) as [_ ->].
  rewrite length_map.
  assert (Hplain : forall hr, hr <> Some false ->
    length (Tree_children (render_sidecar (NFolder b d s children) sidecar hr None)) =
    length (shown (NFolder b d s children)) /\
    Forall (fun row => Tree_children row = [])
      (Tree_children (render_sidecar (NFolder b d s children) sidecar hr None))).
  { intros hr Hhr.
    destruct (render_sidecar_untitled b d s children sidecar hr Hhr) as [-> _].
    cbn [Tree_children]. rewrite length_map. split; [reflexivity |].
    apply List.Forall_map, List.Forall_forall. intros n _. reflexivity. }
  destruct hide_root' as [[|] |]; try (apply Hplain; discriminate).
  rewrite render_sidecar_titled.
  destruct (Hplain None) as [Hlen Hleaf]; [discriminate |].
  destruct (render_sidecar (NFolder b d s children) sidecar None None)
    as [label g h [| [l g' h' cs] rest]]; cbn in *; [split; assumption |].
  split; [exact Hlen |]. inversion Hleaf; subst. constructor; assumption.
Qed.

End LineTree.

Lemma shown_lines (lines : list Node) :
  Forall (fun c => isinstance_Folder c = false) lines ->
  flat_map (fun c => c :: shown c) lines = lines.
Proof.
  induction 1 as [| c cs Hc _ IH]; [reflexivity |].
  cbn [flat_map]. rewrite IH. destruct c; [reflexivity | discriminate].
Qed.

Lemma rows_of_lines sidecar (lines : list Node) :
  Forall (fun c => isinstance_Folder c = false) lines ->
  map (row_of sidecar) lines = map (leaf_row sidecar) lines.
Proof.
  induction 1 as [| c cs Hc _ IH]; [reflexivity |].
  cbn [map]. rewrite IH. unfold row_of at 1. rewrite Hc. reflexivity.
Qed.

(** X28. [process] and then [render_sidecar] on an expanded shared folder:
    [process] returns, every child it leaves is a line, and the sidecar
    has one row for each of them; the last of these rows is the rendering
    of the last line followed by a line break exactly when the newline
    flag of the folder is set. *)
Theorem processed_shared_folder_rows b s children w sidecar :
  exists self' w',
    process (NFolder b EXPANDED (Some s) children) w = Ok (self', w') /\
    Forall (fun c => isinstance_Folder c = false) (Node_children self') /\
    map Tree_label (Tree_children (render_sidecar self' sidecar None None)) =
      map (leaf_row sidecar) (Node_children self') /\
    (forall earlier last,
       Node_children self' = earlier ++ [last] ->
       leaf_row sidecar last =
       _render_node sidecar last +:+ (if newline b then newline_char else "")).
Proof.
  assert (Hrows : forall cs,
    Forall (fun c => isinstance_Folder c = false) cs ->
    map Tree_label
      (Tree_children (render_sidecar (NFolder b EXPANDED (Some s) cs) sidecar None None)) =
    map (leaf_row sidecar) cs).
  { intros cs Hcs.
    destruct (render_sidecar_untitled b EXPANDED (Some s) cs sidecar None) as [-> _];
      [discriminate |].
    cbn [Tree_children shown is_expanded]. rewrite shown_lines by exact Hcs.
    rewrite map_map. cbn [Tree_label]. apply rows_of_lines. exact Hcs. }
  destruct (SharedFolder_process_spec b EXPANDED s children w
              (children_process_total children)) as (old & w1 & _ & Hnil & Hlast).
  destruct (fst (Bucket_use_amount (bucket s) (target_amount s) (pool w1)))
    as [| x xs] eqn:Hused.
  - eexists _, _. split; [apply Hnil; reflexivity |]. cbn [Node_children].
    split; [constructor |]. split; [apply Hrows; constructor |].
    intros earlier last Hsplit. destruct earlier; discriminate.
  - destruct (nonempty_last (x :: xs)) as (earlier' & last_line & Hsplit); [discriminate |].
    rewrite Hsplit in Hlast.
    assert (Hlines : Forall (fun c => isinstance_Folder c = false)
                       (map NLine earlier' ++ [Node_set_newline (newline b) (NLine last_line)])).
    { apply Forall_app. split.
      - apply List.Forall_map, List.Forall_forall. intros l _. reflexivity.
      - constructor; [reflexivity | constructor]. }
    eexists _, _. split; [apply Hlast; reflexivity |]. cbn [Node_children].
    split; [exact Hlines |]. split; [apply Hrows; exact Hlines |].
    intros earlier last Heq. apply app_inj_tail in Heq as [_ <-].
    unfold leaf_row. cbn [Node_set_newline Node_base Line_base set_newline newline].
    reflexivity.
Qed.

End Rendering.

End Further.


(** * The further properties at work *)

Example tree_of_whole :
  Tree_rows (tree Demo.whole "[console]" false true) =
  ["[console] bonds"; "[console] invest"; "[console] bonds"; "[console] stocks";
   "[console] reserve"; "[console] livret"; "[console] compte"].
Proof. reflexivity. Qed.

Example sidecar_of_whole :
  map Tree_label (Tree_children (render_sidecar Demo.whole Sidecar_default None None)) =
  ["[delta] bonds"; "[delta] invest"; "[delta] bonds"; "[delta] stocks";
   "[delta] reserve"; "[delta] livret" +:+ newline_char; "[delta] compte"].
Proof. reflexivity. Qed.

Lemma get_currency_lines_witness :
  get_currency Demo.two_lines = "EUR" <->
  empty_folders Demo.two_lines = 0 /\
  Forall (fun l => Line_get_currency l = "EUR") (lines_of Demo.two_lines).
Proof. apply (get_currency_lines Demo.two_lines "EUR"). discriminate. Defined.

Lemma process_keeps_pool_witness :
  exists n' w',
    process Demo.two_lines Demo.world = Ok (n', w') /\ pool w' = pool Demo.world.
Proof. apply (process_keeps_pool Demo.two_lines Demo.world). reflexivity. Defined.

Lemma match_lines_without_envelope_witness :
  snd (match_lines Demo.etf Demo.two_lines) = Demo.two_lines.
Proof.
  apply (@match_lines_without_envelope Demo.carriers Demo.collaborators Demo.etf
           Demo.two_lines).
  repeat constructor.
Defined.

Lemma match_lines_fills_every_folder_witness :
  length (lines_of
            (snd (match_lines Demo.etf
                    (Folder_init "shares" AssetClass_UNKNOWN AssetSubclass_UNKNOWN None
                       (Some [NLine Demo.stocks; Demo.two_lines]) false EXPANDED None None
                       (Some Demo.pea))))) = 3 + 2 /\
  2 <= length (fst (match_lines Demo.etf
                      (Folder_init "shares" AssetClass_UNKNOWN AssetSubclass_UNKNOWN None
                         (Some [NLine Demo.stocks; Demo.two_lines]) false EXPANDED None None
                         (Some Demo.pea)))).
Proof.
  apply (@match_lines_fills_every_folder Demo.carriers Demo.collaborators Demo.etf
           Demo.pea "shares" AssetClass_UNKNOWN AssetSubclass_UNKNOWN None
           (Some [NLine Demo.stocks; Demo.two_lines]) false EXPANDED None None).
  - left. reflexivity.
  - repeat constructor.
Defined.

Lemma from_dict_skips_unknown_type_witness :
  Folder_from_dict Demo.buckets ∅
    (VDict ([("type", VStr "folder"); ("name", VStr "invest");
             ("target", Target_to_dict Demo.NoTarget)]
            ++ ("children",
                VList ([Line_to_dict Demo.bonds] ++ Demo.option_dict
                       :: [Line_to_dict Demo.stocks]))
            :: [("newline", VBool false); ("display", VInt 0)])) =
  Folder_from_dict Demo.buckets ∅
    (VDict ([("type", VStr "folder"); ("name", VStr "invest");
             ("target", Target_to_dict Demo.NoTarget)]
            ++ ("children",
                VList ([Line_to_dict Demo.bonds] ++ [Line_to_dict Demo.stocks]))
            :: [("newline", VBool false); ("display", VInt 0)])).
Proof.
  apply (from_dict_skips_unknown_type Demo.buckets ∅ _ _ Demo.option_dict _ _
           (VStr "option")); reflexivity.
Defined.

Lemma from_dict_needs_every_bucket_witness :
  Forall (fun s => is_Some (Demo.buckets !! Bucket_name (bucket s)))
    (shared_below
       (NFolder (Node_base (Demo.portfolio infinity)) COLLAPSED None
          (Node_children (Demo.portfolio infinity)))).
Proof.
  apply (from_dict_needs_every_bucket Demo.buckets ∅
           (Node_base (Demo.portfolio infinity)) COLLAPSED
           (Node_children (Demo.portfolio infinity))).
  let r := eval vm_compute in
             (Folder_from_dict Demo.buckets ∅
                (to_dict (NFolder (Node_base (Demo.portfolio infinity)) COLLAPSED None
                            (Node_children (Demo.portfolio infinity))))) in
  match r with Ok ?n => exists n end.
  vm_compute. reflexivity.
Defined.

Lemma Portfolio_from_dict_ignores_display_witness :
  exists b d children,
    Folder_from_dict Demo.buckets ∅ (to_dict (Demo.portfolio infinity)) =
      Ok (NFolder b d None children) /\
    d = COLLAPSED /\
    newline b = true /\
    Portfolio_from_dict (to_dict (Demo.portfolio infinity)) Demo.buckets ∅ =
      Ok (NFolder (set_newline false b) EXPANDED None children).
Proof.
  let r := eval vm_compute in
             (Folder_from_dict Demo.buckets ∅ (to_dict (Demo.portfolio infinity))) in
  match r with
  | Ok (NFolder ?b ?d None ?cs) =>
      exists b, d, cs;
      assert (Hread : Folder_from_dict Demo.buckets ∅ (to_dict (Demo.portfolio infinity))
                      = Ok (NFolder b d None cs)) by (vm_compute; reflexivity)
  end.
  split; [exact Hread |]. split; [reflexivity |]. split; [reflexivity |].
  exact (Portfolio_from_dict_ignores_display Demo.buckets ∅ _ _ _ _ Hread).
Defined.

Lemma Portfolio_roundtrip_witness :
  exists self',
    Portfolio_from_dict (to_dict Demo.whole) Demo.buckets ∅ = Ok self' /\
    rebuilt Demo.buckets ∅ Demo.whole self' /\
    Forall default_attributes (folders_of self').
Proof.
  refine (Portfolio_roundtrip Demo.buckets ∅ _ _ "Finary" (Some (Demo.Ratio 100))
            (Some [NLine Demo.bonds; Demo.two_lines; Demo.shared infinity true])
            (Some "EUR") _).
  - intros [| r | x]; reflexivity.
  - intros [[n ac asc [| r | x] nl p cur env] a] l' Hread;
      injection Hread as <-; repeat split.
  - repeat split; eexists; reflexivity.
Defined.

Lemma to_dict_stable_witness :
  exists self',
    Folder_from_dict Demo.buckets ∅
      (to_dict (NFolder (Node_base (Demo.portfolio infinity)) COLLAPSED None
                  (Node_children (Demo.portfolio infinity)))) = Ok self' /\
    to_dict self' =
      to_dict (NFolder (Node_base (Demo.portfolio infinity)) COLLAPSED None
                 (Node_children (Demo.portfolio infinity))) /\
    Folder_from_dict Demo.buckets ∅ (to_dict self') = Ok self'.
Proof.
  apply (to_dict_stable Demo.buckets ∅).
  - intros [| r | x]; reflexivity.
  - intros [[n ac asc [| r | x] nl p cur env] a] l' Hread;
      injection Hread as <-; reflexivity.
  - intros k bk Hk. unfold Demo.buckets in Hk.
    apply lookup_singleton_Some in Hk as [<- <-]. reflexivity.
  - repeat split; eexists; reflexivity.
Defined.

Lemma render_sidecar_rows_witness :
  render_sidecar Demo.whole Sidecar_default None None =
    mkTree (own_row Sidecar_default Demo.whole) "tree.line" true
      (map (fun n => mkTree (row_of Sidecar_default n) "tree.line" false [])
           (shown Demo.whole)) /\
  (forall t,
     render_sidecar Demo.whole Sidecar_default None (Some t) =
     fold_left Tree_add (map (row_of Sidecar_default) (Demo.whole :: shown Demo.whole)) t).
Proof.
  apply (render_sidecar_rows (Node_base Demo.whole) EXPANDED None
           (Node_children Demo.whole) Sidecar_default None).
  discriminate.
Defined.

Lemma tree_rows_witness :
  Tree_label (tree Demo.whole "[console]" false true) =
    Node_render Demo.whole "[console]" true /\
  Tree_rows (tree Demo.whole "[console]" false true) =
    map (fun n => Node_render n "[console]" true) (shown Demo.whole).
Proof.
  apply (@tree_rows Demo.carriers Demo.renderers "[console]" true (fun l t => eq_refl)
           (Node_base Demo.whole) EXPANDED
           None (Node_children Demo.whole) false).
Defined.

Lemma sidecar_aligned_with_tree_witness :
  length (Tree_children (render_sidecar Demo.whole Sidecar_default (Some false) None)) =
    length (Tree_rows (tree Demo.whole "[console]" false true)) /\
  Forall (fun row => Tree_children row = [])
    (Tree_children (render_sidecar Demo.whole Sidecar_default (Some false) None)).
Proof.
  apply (@sidecar_aligned_with_tree Demo.carriers Demo.renderers "[console]" true
           (fun l t => eq_refl)
           (Node_base Demo.whole) EXPANDED None (Node_children Demo.whole) false
           Sidecar_default (Some false)).
Defined.
